(** * drawMaps.js: a shallow embedding and its verified properties

    The development follows [src/drawMaps.js]: a widget that lets a user
    draw polygons over an element by clicking.  The JavaScript is embedded
    as Rocq functions over an explicit state: the widget object ([this]),
    the part of the DOM the widget touches, and the layout the browser
    reports.  Exceptions are results of the monad, and keep whatever was
    written before they were raised.

    Numbers.  The coordinate mapper is embedded twice.  In the state of
    the widget, pixel quantities coming from the browser ([pageX],
    [getBoundingClientRect], scroll offsets) are exact rationals ([Q]) and
    [Math.round] is [floor (x + 1/2)]: this is what the code computes
    whenever its additions and subtractions are exact, as they are on
    whole numbers of pixels, and it is what the theorems about sessions
    use.  Module [F64] has the mapper over IEEE 754 doubles, with their
    rounding, NaN and infinities; the formula of the mapper is proved
    there.  Numbers inside option objects are integers ([Z]).

    The document.  [document.querySelectorAll] and the element tree are
    those of the DOM standard: [parentNode] is the parent in the tree.
    That a page can give an element a property of its own under that name
    (a form control named [parentNode], for one) is outside the model. *)

From stdpp Require Import base option list strings gmap pretty.
From Stdlib Require Import ZArith QArith Qround Lia Lqa.
From Stdlib Require Import PrimFloat FloatOps SpecFloat.

Local Open Scope Z_scope.
Local Open Scope string_scope.

Set Warnings "-register-all".

(** [Some] takes the type of its argument from the context, so that an
    element can stand where a reference to a parent is expected. *)
#[global] Arguments Some {A} & a.

(** ** JavaScript values *)

Module JS.

Inductive exn : Type :=
| ReferenceError (identifier : string)
| TypeError (message : string)
| DOMException (name : string).

(** Completion of a computation: a value, or a thrown exception. *)
Inductive Res (A : Type) : Type :=
| Ok (a : A)
| Throw (e : exn).
Global Arguments Ok {A} a.
Global Arguments Throw {A} e.

(** The values an option object or an event property can hold.

    An object carries its own enumerable properties in the order
    [for ... in] visits them, its own properties that are not enumerable,
    and its prototype: another object, [Object.prototype]
    ([VObjectPrototype]), or [null].  Properties are data properties;
    accessors are outside the model.

    A function carries its source text, which is what [ToString] gives,
    and what it returns or throws when it is called as a method with one
    string argument, the only way the program ever calls a value; it is
    taken to do the same whenever it is called with the same argument. *)
Inductive value : Type :=
| VUndefined
| VNull
| VBool (b : bool)
| VNum (n : Z)
| VStr (s : string)
| VFun (source : string) (call : string -> Res value)
| VArr (items : list value)
| VObj (own : list (string * value)) (hidden : list (string * value)) (proto : value)
| VObjectPrototype.

Definition typeof (v : value) : string :=
  match v with
  | VUndefined => "undefined"
  | VNull => "object"
  | VBool _ => "boolean"
  | VNum _ => "number"
  | VStr _ => "string"
  | VFun _ _ => "function"
  | VArr _ => "object"
  | VObj _ _ _ => "object"
  | VObjectPrototype => "object"
  end.

Definition ToBoolean (v : value) : bool :=
  match v with
  | VUndefined | VNull => false
  | VBool b => b
  | VNum n => negb (Z.eqb n 0)
  | VStr s => negb (String.eqb s "")
  | VFun _ _ | VArr _ | VObj _ _ _ | VObjectPrototype => true
  end.

(** [ToString] on the values that can be used as a property key or be
    concatenated into a string.  An array joins its items with commas,
    [null] and [undefined] items giving the empty string; an object is
    printed by [Object.prototype.toString]. *)
Fixpoint ToString (v : value) : string :=
  match v with
  | VUndefined => "undefined"
  | VNull => "null"
  | VBool true => "true"
  | VBool false => "false"
  | VNum n => pretty n
  | VStr s => s
  | VFun source _ => source
  | VArr items =>
      String.concat ","
        (map (fun item => match item with
                          | VUndefined | VNull => ""
                          | _ => ToString item
                          end) items)
  | VObj _ _ _ => "[object Object]"
  | VObjectPrototype => "[object Object]"
  end.

Fixpoint chars_from (i : nat) (s : string) : list (string * value) :=
  match s with
  | EmptyString => []
  | String c rest => (pretty i, VStr (String c EmptyString)) :: chars_from (S i) rest
  end.

(** Own enumerable properties, in the order [for ... in] visits them. *)
Definition own_props (v : value) : list (string * value) :=
  match v with
  | VObj own _ _ => own
  | VArr items => imap (fun i x => (pretty i, x)) items
  | VStr s => chars_from 0 s
  | _ => []
  end.

(** Own properties that [for ... in] does not visit. *)
Definition hidden_props (v : value) : list (string * value) :=
  match v with
  | VObj _ hidden _ => hidden
  | VArr items => [("length", VNum (Z.of_nat (length items)))]
  | VStr s => [("length", VNum (Z.of_nat (String.length s)))]
  | _ => []
  end.

Fixpoint assoc (k : string) (l : list (string * value)) : option value :=
  match l with
  | [] => None
  | (k', v) :: rest => if String.eqb k k' then Some v else assoc k rest
  end.

(** [Object.prototype.hasOwnProperty.call(obj, key)]: the built-in test. *)
Definition has_own (obj : value) (key : string) : bool :=
  bool_decide (is_Some (assoc key (own_props obj ++ hidden_props obj)%list)).

(** The property [key] as found on the object or along its prototype
    chain.  The built-in properties of [Object.prototype] and of the
    prototypes of arrays, strings and functions are not listed: none is
    enumerable, and the one the program uses is [hasOwnProperty], below. *)
Fixpoint get_property (obj : value) (key : string) : option value :=
  match obj with
  | VObj own hidden proto =>
      match assoc key (own ++ hidden)%list with
      | Some v => Some v
      | None => get_property proto key
      end
  | _ => assoc key (own_props obj ++ hidden_props obj)%list
  end.

(** [obj[key]] *)
Definition get (obj : value) (key : string) : value :=
  default VUndefined (get_property obj key).

(** The keys [for (var key in obj)] enumerates: the own enumerable ones,
    then those of the prototype chain that no property nearer to the
    object shadows. *)
Fixpoint for_in_keys (obj : value) : list string :=
  match obj with
  | VObj own hidden proto =>
      own.*1 ++ filter (fun k => k ∉ ((own ++ hidden)%list).*1) (for_in_keys proto)
  | _ => (own_props obj).*1
  end.

(** What [obj.hasOwnProperty] evaluates to: the built-in function of
    [Object.prototype], a property of that name found before
    [Object.prototype] is reached, or nothing, on a chain that ends in
    [null] without passing through [Object.prototype]. *)
Inductive Method : Type :=
| Builtin
| Shadowed (v : value)
| Missing.

Fixpoint hasOwnProperty_of (obj : value) : Method :=
  match obj with
  | VObj own hidden proto =>
      match assoc "hasOwnProperty" (own ++ hidden)%list with
      | Some v => Shadowed v
      | None => hasOwnProperty_of proto
      end
  | VUndefined | VNull => Missing
  | _ => Builtin
  end.

(** The method call [obj.hasOwnProperty(key)], in a boolean context. *)
Definition hasOwnProperty (obj : value) (key : string) : Res bool :=
  match hasOwnProperty_of obj with
  | Builtin => Ok (has_own obj key)
  | Shadowed (VFun _ call) =>
      match call key with
      | Ok v => Ok (ToBoolean v)
      | Throw e => Throw e
      end
  | Shadowed _ | Missing => Throw (TypeError "obj.hasOwnProperty is not a function")
  end.

(** Computations over a mutable state [S] that may throw.  The state a
    throwing computation leaves behind is kept: nothing is rolled back. *)
Definition M (S A : Type) : Type := S -> Res A * S.

Definition ret {S A} (a : A) : M S A := fun s => (Ok a, s).

Definition bind {S A B} (m : M S A) (f : A -> M S B) : M S B :=
  fun s =>
    match m s with
    | (Ok a, s') => f a s'
    | (Throw e, s') => (Throw e, s')
    end.

Definition throw {S A} (e : exn) : M S A := fun s => (Throw e, s).
Definition gets {S A} (f : S -> A) : M S A := fun s => (Ok (f s), s).
Definition modify {S} (f : S -> S) : M S unit := fun s => (Ok tt, f s).

(** [when c m]: an [if] without [else]. *)
Definition when {S} (c : bool) (m : M S unit) : M S unit :=
  if c then m else ret tt.

(** Member access on a reference that may be [null]. *)
Definition deref {S A} (what : string) (r : option A) : M S A :=
  match r with
  | Some n => ret n
  | None => throw (TypeError ("Cannot read properties of null: " ++ what))
  end.

End JS.

Import JS.

(** [M S] is used through stdpp's monad notations: [x ← m; k] and [m;; k]. *)
#[global] Instance M_ret {S} : MRet (M S) := fun A a => ret a.
#[global] Instance M_bind {S} : MBind (M S) := fun A B f m => bind m f.

(** Running the first computation in a part of the state. *)
Definition zoom {S T A} (proj : S -> T) (inj : T -> S -> S) (m : M T A) : M S A :=
  fun s => let (r, t) := m (proj s) in (r, inj t s).

(** ** The browser: DOM nodes, layout and console *)

Module Dom.

(** The two methods the widget binds as event listeners. *)
Inductive Handler : Type := OnClick | OnMove.

(** [node.addEventListener(type, this.handler.bind(this))]; the bound
    widget is named by the element it was constructed for. *)
Record Listener : Type := {
  l_type : string;
  l_handler : Handler;
  l_this : nat
}.

(** What [parentNode] can refer to: the document, or an element, named by
    its index in the store of elements. *)
Inductive Ref : Type :=
| Document
| Elem (i : nat).

Coercion Elem : nat >-> Ref.

#[global] Instance Ref_eq_dec : EqDecision Ref.
Proof. solve_decision. Defined.

(** An element.  The tree is kept as parent pointers: the program never
    reads the order of siblings.  The parent of the document element is
    the document; an element that is in no tree has none.  [tagName] is
    the name the element was created with; [attributes] holds what
    [setAttribute] has set; [style] holds the text the program last
    assigned to each property of [element.style] (how the browser parses
    that text, and shows it as a [style] attribute, is not modelled). *)
Record Node : Type := {
  tagName : string;
  namespaceURI : string;
  parentNode : option Ref;
  attributes : gmap string string;
  style : gmap string string;
  listeners : list Listener;
  clientWidth : Z;
  clientHeight : Z
}.

Record Rect : Type := { rect_top : Q; rect_left : Q }.

(** What the browser reports about geometry at a given moment:
    [element.getBoundingClientRect()], [window.pageXOffset],
    [window.pageYOffset], [document.documentElement.clientTop] and
    [document.documentElement.clientLeft]. *)
Record Layout : Type := {
  getBoundingClientRect : nat -> Rect;
  pageXOffset : Q;
  pageYOffset : Q;
  clientTop : Q;
  clientLeft : Q
}.

(** The elements there are, the listeners bound on the document itself,
    the layout and the console. *)
Record Browser : Type := {
  nodes : list Node;
  document_listeners : list Listener;
  layout : Layout;
  console : list (list string)
}.

Definition detached (ns tag : string) : Node :=
  {| tagName := tag; namespaceURI := ns; parentNode := None;
     attributes := ∅; style := ∅; listeners := [];
     clientWidth := 0; clientHeight := 0 |}.

(** Reading a node; a reference outside the store reads as a detached
    node. *)
Definition node (b : Browser) (i : nat) : Node :=
  default (detached "" "") (nodes b !! i).

Definition set_nodes (ns : list Node) (b : Browser) : Browser :=
  {| nodes := ns; document_listeners := document_listeners b;
     layout := layout b; console := console b |}.

Definition alter_node (f : Node -> Node) (i : nat) (b : Browser) : Browser :=
  set_nodes (alter f i (nodes b)) b.

Definition with_parent (p : option Ref) (n : Node) : Node :=
  {| tagName := tagName n; namespaceURI := namespaceURI n; parentNode := p;
     attributes := attributes n; style := style n; listeners := listeners n;
     clientWidth := clientWidth n; clientHeight := clientHeight n |}.

Definition with_attribute (k v : string) (n : Node) : Node :=
  {| tagName := tagName n; namespaceURI := namespaceURI n;
     parentNode := parentNode n;
     attributes := <[k := v]> (attributes n); style := style n;
     listeners := listeners n;
     clientWidth := clientWidth n; clientHeight := clientHeight n |}.

Definition with_style (k v : string) (n : Node) : Node :=
  {| tagName := tagName n; namespaceURI := namespaceURI n;
     parentNode := parentNode n;
     attributes := attributes n; style := <[k := v]> (style n);
     listeners := listeners n;
     clientWidth := clientWidth n; clientHeight := clientHeight n |}.

Definition with_listener (l : Listener) (n : Node) : Node :=
  {| tagName := tagName n; namespaceURI := namespaceURI n;
     parentNode := parentNode n;
     attributes := attributes n; style := style n;
     listeners := listeners n ++ [l];
     clientWidth := clientWidth n; clientHeight := clientHeight n |}.

Definition xhtml : string := "http://www.w3.org/1999/xhtml".

(** [document.createElementNS(ns, tag)]: a new node, not yet in the tree. *)
Definition createElementNS (ns tag : string) : M Browser nat :=
  fun b => (Ok (length (nodes b)), set_nodes (nodes b ++ [detached ns tag]) b).

Definition createElement (tag : string) : M Browser nat :=
  createElementNS xhtml tag.

Definition getParentNode (i : nat) : M Browser (option Ref) :=
  gets (fun b => parentNode (node b i)).

Definition setAttribute (i : nat) (k v : string) : M Browser unit :=
  modify (alter_node (with_attribute k v) i).

Definition setStyle (i : nat) (k v : string) : M Browser unit :=
  modify (alter_node (with_style k v) i).

(** [parent.insertBefore(new, ref)]: [ref] must be a child of [parent].
    The document takes one element as its child, and has [ref] already:
    it refuses a second one with a HierarchyRequestError. *)
Definition insertBefore (parent : Ref) (new ref : nat) : M Browser unit :=
  p ← getParentNode ref;
  if decide (p = Some parent)
  then match parent with
       | Elem _ => modify (alter_node (with_parent (Some parent)) new)
       | Document => throw (DOMException "HierarchyRequestError")
       end
  else throw (DOMException "NotFoundError").

(** [parent.removeChild(child)]. *)
Definition removeChild (parent : Ref) (child : nat) : M Browser unit :=
  p ← getParentNode child;
  if decide (p = Some parent)
  then modify (alter_node (with_parent None) child)
  else throw (DOMException "NotFoundError").

(** The document has its element child. *)
Definition has_documentElement (b : Browser) : bool :=
  existsb (fun n => bool_decide (parentNode n = Some Document)) (nodes b).

(** [parent.appendChild(child)]: the child leaves its old parent.  The
    document refuses an element when it has one.  (A child that contains
    the parent is refused too; the program appends new elements, and the
    element to its new wrapper.) *)
Definition appendChild (parent : Ref) (child : nat) : M Browser unit :=
  match parent with
  | Elem _ => modify (alter_node (with_parent (Some parent)) child)
  | Document =>
      taken ← gets has_documentElement;
      if taken : bool then throw (DOMException "HierarchyRequestError")
      else modify (alter_node (with_parent (Some Document)) child)
  end.

(** The children of an element, read off the parent pointers. *)
Definition childNodes (b : Browser) (i : nat) : list nat :=
  filter (fun j => parentNode (node b j) = Some i) (seq 0 (length (nodes b))).

Definition orphan (i : nat) (n : Node) : Node :=
  if decide (parentNode n = Some i) then with_parent None n else n.

(** [node.innerHTML = '']: every child is removed from the node. *)
Definition clear_innerHTML (i : nat) : M Browser unit :=
  modify (fun b => set_nodes (orphan i <$> nodes b) b).

Definition addEventListener (target : Ref) (type : string) (h : Handler) (self : nat)
  : M Browser unit :=
  let l := {| l_type := type; l_handler := h; l_this := self |} in
  match target with
  | Elem i => modify (alter_node (with_listener l) i)
  | Document =>
      modify (fun b => {| nodes := nodes b;
                          document_listeners := document_listeners b ++ [l];
                          layout := layout b; console := console b |})
  end.

Definition console_log (args : list string) : M Browser unit :=
  modify (fun b => {| nodes := nodes b; document_listeners := document_listeners b;
                      layout := layout b; console := console b ++ [args] |}).

End Dom.

Import Dom.

(** ** The widget *)

Module DrawMaps.

(** The fields the constructor gives a widget object. *)
Record Widget : Type := {
  options : gmap string value;
  element : nat;
  xmlns : string;
  svg : option nat;
  polygon : option nat;
  isDrawing : bool;
  coords : list (Z * Z)
}.

(** A pointer event: its page position and its other properties, among
    them the modifier flags ([metaKey], [shiftKey], [altKey], ...). *)
Record Event : Type := {
  pageX : Q;
  pageY : Q;
  props : gmap string value
}.

Record Offset : Type := { top : Q; left : Q }.
Record Position : Type := { x : Z; y : Z }.

(** The state a method runs in: the widget it is called on, and the
    browser. *)
Record St : Type := { this : Widget; dom : Browser }.

Definition in_dom {A} (m : M Browser A) : M St A :=
  zoom dom (fun b s => {| this := this s; dom := b |}) m.

Definition set_this (f : Widget -> Widget) : M St unit :=
  modify (fun s => {| this := f (this s); dom := dom s |}).

Definition with_svg (v : option nat) (w : Widget) : Widget :=
  {| options := options w; element := element w; xmlns := xmlns w;
     svg := v; polygon := polygon w; isDrawing := isDrawing w;
     coords := coords w |}.

Definition with_polygon (v : option nat) (w : Widget) : Widget :=
  {| options := options w; element := element w; xmlns := xmlns w;
     svg := svg w; polygon := v; isDrawing := isDrawing w;
     coords := coords w |}.

Definition with_isDrawing (v : bool) (w : Widget) : Widget :=
  {| options := options w; element := element w; xmlns := xmlns w;
     svg := svg w; polygon := polygon w; isDrawing := v;
     coords := coords w |}.

Definition with_coords (v : list (Z * Z)) (w : Widget) : Widget :=
  {| options := options w; element := element w; xmlns := xmlns w;
     svg := svg w; polygon := polygon w; isDrawing := isDrawing w;
     coords := v |}.

(** [this.options.key] *)
Definition option_of (w : Widget) (key : string) : value :=
  default VUndefined (options w !! key).

(** [drawMaps.prototype.defaults] *)
Definition defaults : value :=
  VObj [ ("wrapImages", VBool true);
         ("regretKey", VStr "metaKey");
         ("closeKey", VStr "shiftKey");
         ("resetKey", VStr "altKey");
         ("fillColor", VStr "rgba(255, 0, 0, 0.3)");
         ("strokeColor", VStr "rgba(255, 0, 0, 0.5)");
         ("strokeWidth", VNum 1) ] [] VObjectPrototype.

(** [out[key] = v] on the plain object that collects the options, for a
    value [v] that is not an object, an array or [null].  The key
    ["__proto__"] names the accessor of [Object.prototype], so assigning
    to it creates no property.  (A function assigned to it becomes the
    prototype of [out], which the map does not record.) *)
Definition assign (key : string) (v : value) (out : gmap string value)
  : gmap string value :=
  if String.eqb key "__proto__" then out else <[key := v]> out.

(** The body of the inner loop of [extend], for one enumerated key.  The
    identifier [deepExtend] is bound nowhere in the file, so evaluating the
    call throws a ReferenceError. *)
Definition extend_key (obj : value) (out : gmap string value) (key : string)
  : Res (gmap string value) :=
  match hasOwnProperty obj key with
  | Throw e => Throw e
  | Ok true =>
      if String.eqb (typeof (get obj key)) "object"
      then Throw (ReferenceError "deepExtend")
      else Ok (assign key (get obj key) out)
  | Ok false => Ok out
  end.

Fixpoint extend_keys (obj : value) (out : gmap string value) (keys : list string)
  : Res (gmap string value) :=
  match keys with
  | [] => Ok out
  | key :: rest =>
      match extend_key obj out key with
      | Ok out' => extend_keys obj out' rest
      | Throw e => Throw e
      end
  end.

(** [extend(out, arguments[1], arguments[2], ...)] *)
Fixpoint extend (out : gmap string value) (args : list value)
  : Res (gmap string value) :=
  match args with
  | [] => Ok out
  | obj :: rest =>
      if negb (ToBoolean obj) then extend out rest
      else match extend_keys obj out (for_in_keys obj) with
           | Ok out' => extend out' rest
           | Throw e => Throw e
           end
  end.

Definition getElementOffset (element : nat) : M St Offset :=
  gets (fun s =>
          let l := layout (dom s) in
          let rect := getBoundingClientRect l element in
          {| top := (rect_top rect + pageYOffset l - clientTop l)%Q;
             left := (rect_left rect + pageXOffset l - clientLeft l)%Q |}).

(** [Math.round]: the nearest integer, a tie going up. *)
Definition Math_round (q : Q) : Z := Qfloor (q + (1 # 2))%Q.

Definition getMousePosition (event : Event) : M St Position :=
  el ← gets (fun s => element (this s));
  offset ← getElementOffset el;
  mret {| x := Math_round (pageX event - left offset)%Q;
          y := Math_round (pageY event - top offset)%Q |}.

Definition injectWrapper : M St unit :=
  el ← gets (fun s => element (this s));
  wrapper ← in_dom (createElement "div");
  in_dom (setStyle wrapper "display" "inline-block");;
  in_dom (setStyle wrapper "position" "relative");;
  p ← in_dom (getParentNode el);
  p ← deref "insertBefore" p;
  in_dom (insertBefore p wrapper el);;
  p ← in_dom (getParentNode el);
  p ← deref "removeChild" p;
  in_dom (removeChild p el);;
  in_dom (appendChild (Elem wrapper) el).

Definition injectSvg : M St unit :=
  el ← gets (fun s => element (this s));
  ns ← gets (fun s => xmlns (this s));
  sv ← in_dom (createElementNS ns "svg");
  w ← in_dom (gets (fun b => clientWidth (node b el)));
  h ← in_dom (gets (fun b => clientHeight (node b el)));
  in_dom (setAttribute sv "viewBox"
            (String.concat " " [pretty 0; pretty 0; pretty w; pretty h]));;
  in_dom (setStyle sv "webkitUserSelect" "none");;
  in_dom (setStyle sv "position" "absolute");;
  in_dom (setStyle sv "left" (pretty 0));;
  in_dom (setStyle sv "top" (pretty 0));;
  p ← in_dom (getParentNode el);
  p ← deref "appendChild" p;
  in_dom (appendChild p sv);;
  set_this (with_svg (Some sv)).

Definition injectPolygon : M St unit :=
  ns ← gets (fun s => xmlns (this s));
  pg ← in_dom (createElementNS ns "polygon");
  fill ← gets (fun s => option_of (this s) "fillColor");
  in_dom (setStyle pg "fill" (ToString fill));;
  stroke ← gets (fun s => option_of (this s) "strokeColor");
  in_dom (setStyle pg "stroke" (ToString stroke));;
  width ← gets (fun s => option_of (this s) "strokeWidth");
  in_dom (setStyle pg "strokeWidth" (ToString width));;
  sv ← gets (fun s => svg (this s));
  sv ← deref "appendChild" sv;
  in_dom (appendChild (Elem sv) pg);;
  set_this (with_polygon (Some pg)).

(** [[x, y].toString()] of a stored vertex, and [this.coords.toString()]. *)
Definition vertex_toString (c : Z * Z) : string :=
  String.concat "," [pretty (fst c); pretty (snd c)].

Definition coords_toString (cs : list (Z * Z)) : string :=
  String.concat "," (map vertex_toString cs).

Definition renderNewPoint (x y : Z) : M St unit :=
  pg ← gets (fun s => polygon (this s));
  pg ← deref "setAttribute" pg;
  cs ← gets (fun s => coords (this s));
  in_dom (setAttribute pg "points"
            (String.concat "," [coords_toString cs; pretty x; pretty y])).

Definition regretPoint : M St unit :=
  cs ← gets (fun s => coords (this s));
  when (0 <? length cs)%nat (set_this (with_coords (removelast cs))).

Definition closeMap : M St unit :=
  set_this (with_isDrawing false);;
  set_this (with_polygon None);;
  set_this (with_coords []).

Definition resetMaps : M St unit :=
  set_this (with_isDrawing false);;
  sv ← gets (fun s => svg (this s));
  sv ← deref "innerHTML" sv;
  in_dom (clear_innerHTML sv);;
  set_this (with_polygon None);;
  set_this (with_coords []).

(** [event[key]] in a boolean context; the key is [ToString] of the option
    value. *)
Definition event_flag (event : Event) (key : value) : bool :=
  let k := ToString key in
  if String.eqb k "pageX" then negb (Qeq_bool (pageX event) 0)
  else if String.eqb k "pageY" then negb (Qeq_bool (pageY event) 0)
  else ToBoolean (default VUndefined (props event !! k)).

(** The last three statements of [onClick]: store the mapped position and
    mark the session as drawing. *)
Definition addVertex (position : Position) : M St unit :=
  cs ← gets (fun s => coords (this s));
  set_this (with_coords (cs ++ [(x position, y position)]));;
  set_this (with_isDrawing true).

(** [event.preventDefault()] acts on the event only and is left out. *)
Definition onClick (event : Event) : M St unit :=
  pg ← gets (fun s => polygon (this s));
  when (negb (bool_decide (is_Some pg))) injectPolygon;;
  regretKey ← gets (fun s => option_of (this s) "regretKey");
  if event_flag event regretKey then regretPoint
  else
    closeKey ← gets (fun s => option_of (this s) "closeKey");
    if event_flag event closeKey then closeMap
    else
      resetKey ← gets (fun s => option_of (this s) "resetKey");
      if event_flag event resetKey then resetMaps
      else
        position ← getMousePosition event;
        addVertex position.

(** As in [onClick], [event.preventDefault()] is left out. *)
Definition onMove (event : Event) : M St unit :=
  drawing ← gets (fun s => isDrawing (this s));
  cs ← gets (fun s => coords (this s));
  if negb drawing || (length cs =? 0)%nat then mret tt
  else
    position ← getMousePosition event;
    renderNewPoint (x position) (y position).

Definition nl_tab : string :=
  String (Ascii.ascii_of_nat 10) (String (Ascii.ascii_of_nat 9) EmptyString).

Definition initialize : M St unit :=
  wrap ← gets (fun s => option_of (this s) "wrapImages");
  when (ToBoolean wrap) injectWrapper;;
  injectSvg;;
  el ← gets (fun s => element (this s));
  p ← in_dom (getParentNode el);
  p ← deref "addEventListener" p;
  in_dom (addEventListener p "click" OnClick el);;
  p ← in_dom (getParentNode el);
  p ← deref "addEventListener" p;
  in_dom (addEventListener p "mousemove" OnMove el);;
  in_dom (console_log ["%cDraw Maps has been initialized!";
                       "font-family:Arial; font-size:1.1em; font-weight:bold"]);;
  regretKey ← gets (fun s => option_of (this s) "regretKey");
  closeKey ← gets (fun s => option_of (this s) "closeKey");
  resetKey ← gets (fun s => option_of (this s) "resetKey");
  in_dom (console_log
            ["Available actions below:" ++
             nl_tab ++ " Start to draw [click]" ++
             nl_tab ++ " Regret last move [click + " ++ ToString regretKey ++ "]" ++
             nl_tab ++ " Close current map [click + " ++ ToString closeKey ++ "]" ++
             nl_tab ++ " Clear all maps [click + " ++ ToString resetKey ++ "]"]).

(** What the exposed function works on: the browser, and the widget
    objects that bound listeners keep alive, in order of construction. *)
Record World : Type := { browser : Browser; instances : list Widget }.

(** [new drawMaps(element, options)].  A widget whose constructor throws is
    referenced by nothing; what the constructor did to the document
    before throwing remains. *)
Definition drawMaps (el : nat) (opts : value) : M World unit :=
  fun w =>
    match extend ∅ [defaults; opts] with
    | Throw e => (Throw e, w)
    | Ok o =>
        let this0 :=
          {| options := o; element := el;
             xmlns := "http://www.w3.org/2000/svg";
             svg := None; polygon := None;
             isDrawing := false; coords := [] |} in
        match initialize {| this := this0; dom := browser w |} with
        | (Ok _, s) =>
            (Ok tt, {| browser := dom s; instances := instances w ++ [this s] |})
        | (Throw e, s) =>
            (Throw e, {| browser := dom s; instances := instances w |})
        end
    end.

Section Exposed.

(** [document.querySelectorAll]: the matched elements, in the order of the
    returned list. *)
Variable querySelectorAll : Browser -> string -> list nat.

(** [for (var i = n - 1; i >= 0; i--) new drawMaps(elements[i], options)],
    entered with [i = n - 1]. *)
Fixpoint loop (elements : list nat) (options : value) (n : nat) : M World unit :=
  match n with
  | O => mret tt
  | S i =>
      match elements !! i with
      | Some el => drawMaps el options
      | None => throw (TypeError "Cannot read properties of undefined")
      end;;
      loop elements options i
  end.

(** The exposed function. *)
Definition exposed (selector : string) (options : value) : M World unit :=
  elements ← gets (fun w => querySelectorAll (browser w) selector);
  loop elements options (length elements).

End Exposed.

(** The state a computation ends in, and its completion. *)
Definition exec {S A} (m : M S A) (s : S) : S := snd (m s).
Definition completion {S A} (m : M S A) (s : S) : Res A := fst (m s).

(** *** The browser scrolling

    The page scrolls by [(dx, dy)]: the scroll offsets grow by it and
    every bounding rectangle, which is relative to the viewport, moves the
    other way; positions in the document do not change. *)
Definition scrollBy (dx dy : Q) (l : Layout) : Layout :=
  {| getBoundingClientRect := fun el =>
       let r := getBoundingClientRect l el in
       {| rect_top := (rect_top r - dy)%Q; rect_left := (rect_left r - dx)%Q |};
     pageXOffset := (pageXOffset l + dx)%Q;
     pageYOffset := (pageYOffset l + dy)%Q;
     clientTop := clientTop l;
     clientLeft := clientLeft l |}.

Definition with_layout (l : Layout) (s : St) : St :=
  {| this := this s;
     dom := {| nodes := nodes (dom s);
               document_listeners := document_listeners (dom s);
               layout := l; console := console (dom s) |} |}.

(** *** The specification's wording of the coordinate mapper *)

Definition spec_offsetLeft (l : Layout) (el : nat) : Q :=
  (rect_left (getBoundingClientRect l el) + pageXOffset l - clientLeft l)%Q.

Definition spec_offsetTop (l : Layout) (el : nat) : Q :=
  (rect_top (getBoundingClientRect l el) + pageYOffset l - clientTop l)%Q.

(** [z] is the integer nearest to [q], the upper one when [q] lies
    half-way between two integers. *)
Definition nearest_integer (q : Q) (z : Z) : Prop :=
  (inject_Z z - (1 # 2) <= q /\ q < inject_Z z + (1 # 2))%Q.

(** *** The click handler in two steps *)

(** Whether the event has the modifier named by the given option set. *)
Definition held (event : Event) (w : Widget) (name : string) : bool :=
  event_flag event (option_of w name).

(** The first statement of [onClick]: a polygon to draw into is created
    when the session has none. *)
Definition ensurePolygon : M St unit :=
  pg ← gets (fun s => polygon (this s));
  when (negb (bool_decide (is_Some pg))) injectPolygon.

(** The rest of [onClick]: the modifiers are tried in the order the
    handler tests them. *)
Definition dispatch (event : Event) : M St unit :=
  regretKey ← gets (fun s => option_of (this s) "regretKey");
  if event_flag event regretKey then regretPoint
  else
    closeKey ← gets (fun s => option_of (this s) "closeKey");
    if event_flag event closeKey then closeMap
    else
      resetKey ← gets (fun s => option_of (this s) "resetKey");
      if event_flag event resetKey then resetMaps
      else
        position ← getMousePosition event;
        addVertex position.

(** The plain click: map the pointer and add the vertex. *)
Definition addMappedVertex (event : Event) : M St unit :=
  position ← getMousePosition event;
  addVertex position.

(** The [points] attribute of a polygon through the given vertices. *)
Definition points_attribute (cs : list (Z * Z)) : string :=
  String.concat "," (flat_map (fun c => [pretty (fst c); pretty (snd c)]) cs).

(** The parts of the state no handler changes. *)
Definition same_setup (s s' : St) : Prop :=
  options (this s') = options (this s) /\
  element (this s') = element (this s) /\
  xmlns (this s') = xmlns (this s) /\
  svg (this s') = svg (this s) /\
  layout (dom s') = layout (dom s).

(** One event handled by the widget: a click or a move, in whatever
    state the rest of the browser is by then. *)
Definition handles (s s' : St) : Prop :=
  exists (event : Event) (b : Browser),
    s' = exec (onClick event) {| this := this s; dom := b |} \/
    s' = exec (onMove event) {| this := this s; dom := b |}.

(** *** The specification's wording of option merging *)

(** The options of a widget constructed without an options argument. *)
Definition default_options : gmap string value :=
  list_to_map (own_props defaults).

(** The value has an own enumerable property holding an object, an array
    or [null]. *)
Definition has_object_valued_property (v : value) : Prop :=
  exists key, key ∈ (own_props v).*1 /\ typeof (get v key) = "object".

(** The key names an own enumerable property of the value. *)
Definition enumerable_own (v : value) (key : string) : bool :=
  bool_decide (key ∈ (own_props v).*1).

(** [extend] skips the options argument, or the [hasOwnProperty] it calls
    on it is the built-in one. *)
Definition builtin_test (opts : value) : Prop :=
  ToBoolean opts = false \/ hasOwnProperty_of opts = Builtin.

(** The options argument has no function under the name ["__proto__"]
    for [extend] to assign: the object that collects the options keeps
    [Object.prototype] as its prototype, and every assignment to another
    name creates the property. *)
Definition keeps_prototype (opts : value) : bool :=
  negb (bool_decide ("__proto__" ∈ for_in_keys opts) &&
        String.eqb (typeof (get opts "__proto__")) "function").

(** Options that leave the names [hasOwnProperty] and [__proto__] to
    [Object.prototype]. *)
Definition plain_options (opts : value) : Prop :=
  builtin_test opts /\ keeps_prototype opts = true.

(** The option a widget is asked to have: the own enumerable property of
    the options argument when there is one, the default otherwise. *)
Definition configured (opts : value) (name : string) : value :=
  if enumerable_own opts name then get opts name
  else default VUndefined (default_options !! name).

(** A widget for the element has been constructed and is kept alive by
    its listeners. *)
Definition initialised_for (w : World) (el : nat) : Prop :=
  exists wd, wd ∈ instances w /\ element wd = el.

(** The parent of the element is an element. *)
Definition has_parent_element (b : Browser) (e : nat) : Prop :=
  exists p : nat, parentNode (node b e) = Some p.

(** What [document.querySelectorAll] returns: distinct elements of the
    document, in document order.  Each of them has a parent, and the
    document element, the one whose parent is the document, comes before
    every other element. *)
Definition matches_of_document (b : Browser) (els : list nat) : Prop :=
  NoDup els /\
  (forall e, e ∈ els -> is_Some (parentNode (node b e))) /\
  (forall j e, els !! j = Some e -> parentNode (node b e) = Some Document -> j = 0%nat).

(** *** Sample data *)

Module Sample.

(** An element at document offset [(10, 10)], the page not scrolled. *)
Definition layout0 : Layout :=
  {| getBoundingClientRect := fun _ => {| rect_top := 10; rect_left := 10 |};
     pageXOffset := 0; pageYOffset := 0; clientTop := 0; clientLeft := 0 |}.

(** The document element (node 0) holding two images (nodes 1 and 3),
    and an image (node 2) that a script has created and not yet put into
    the document. *)
Definition page : Browser :=
  {| nodes := [ with_parent (Some Document) (detached xhtml "html");
                with_parent (Some 0%nat) (detached xhtml "img");
                detached xhtml "img";
                with_parent (Some 0%nat) (detached xhtml "img") ];
     document_listeners := [];
     layout := layout0;
     console := [] |}.

Definition world : World := {| browser := page; instances := [] |}.

(** The widget that [new drawMaps(node 1)] leaves, with its browser. *)
Definition session : St :=
  let w := exec (drawMaps 1 VUndefined) world in
  {| this := {| options := default_options;
                element := 1;
                xmlns := "http://www.w3.org/2000/svg";
                svg := Some 5%nat; polygon := None;
                isDrawing := false; coords := [] |};
     dom := browser w |}.

Definition click (px py : Z) (flags : list (string * value)) : Event :=
  {| pageX := inject_Z px; pageY := inject_Z py; props := list_to_map flags |}.

Definition plain_click_1 : Event := click 110 60 [].
Definition undo_click : Event := click 130 80 [("metaKey", VBool true)].
Definition plain_click_2 : Event := click 130 80 [].

(** Every modifier held at once. *)
Definition all_modifiers_click : Event :=
  click 5 5 [("metaKey", VBool true); ("shiftKey", VBool true);
             ("altKey", VBool true)].

(** The finalize and the clear-all modifiers held, the undo one not. *)
Definition finalize_and_clear_click : Event :=
  click 5 5 [("metaKey", VBool false); ("shiftKey", VBool true);
             ("altKey", VBool true)].

(** Only the clear-all modifier held. *)
Definition clear_click : Event := click 5 5 [("altKey", VBool true)].

(** An options argument with a nested object. *)
Definition nested_options : value :=
  VObj [("strokeWidth", VNum 2);
        ("style", VObj [("dashed", VBool true)] [] VObjectPrototype)]
       [] VObjectPrototype.

(** [{strokeWidth: 2}] *)
Definition flat_options : value :=
  VObj [("strokeWidth", VNum 2)] [] VObjectPrototype.

(** [{hasOwnProperty: null}] *)
Definition shadowing_options : value :=
  VObj [("hasOwnProperty", VNull)] [] VObjectPrototype.

(** [{strokeWidth: 2, hasOwnProperty: 1}] *)
Definition shadowing_flat_options : value :=
  VObj [("strokeWidth", VNum 2); ("hasOwnProperty", VNum 1)] [] VObjectPrototype.

(** [{regretKey: 'ctrlKey', hasOwnProperty: function () { return false }}] *)
Definition disowning_options : value :=
  VObj [("regretKey", VStr "ctrlKey");
        ("hasOwnProperty",
         VFun "function () { return false }" (fun _ => Ok (VBool false)))]
       [] VObjectPrototype.

(** [Object.create(null)] given a [strokeWidth]. *)
Definition bare_options : value :=
  VObj [("strokeWidth", VNum 2)] [] VNull.

(** A session in the middle of a drawing. *)
Definition drawing : St := exec (onClick plain_click_1;; onClick plain_click_2) session.

(** [document.querySelectorAll] on [page], for the selectors ['img'] and
    ['*']: the elements of the document that match, in document order. *)
Definition querySelectorAll (b : Browser) (selector : string) : list nat :=
  if String.eqb selector "img" then [1; 3]%nat
  else if String.eqb selector "*" then [0; 1; 3]%nat
  else [].

End Sample.

(** *** Sequences of events *)

(** The click events of the list delivered to the widget one after the
    other. *)
Fixpoint clicks (events : list Event) : M St unit :=
  match events with
  | [] => mret tt
  | event :: rest => onClick event;; clicks rest
  end.

(** No modifier the widget listens to is held. *)
Definition plain (w : Widget) (event : Event) : Prop :=
  held event w "regretKey" = false /\
  held event w "closeKey" = false /\
  held event w "resetKey" = false.

(** The vertex a pointer position is mapped to under a layout. *)
Definition mapped (l : Layout) (el : nat) (event : Event) : Z * Z :=
  (Math_round (pageX event - spec_offsetLeft l el),
   Math_round (pageY event - spec_offsetTop l el)).

(** A whole number of pixels, small enough for sums and differences of
    a few such numbers to be exact in double precision too. *)
Definition whole (q : Q) : Prop :=
  (q == inject_Z (Qfloor q))%Q /\ Z.abs (Qfloor q) <= 2 ^ 50.

(** The pointer position and everything the mapper reads of the layout
    are whole numbers of pixels. *)
Definition whole_pixels (l : Layout) (el : nat) (event : Event) : Prop :=
  whole (pageX event) /\ whole (pageY event) /\
  whole (rect_left (getBoundingClientRect l el)) /\
  whole (rect_top (getBoundingClientRect l el)) /\
  whole (pageXOffset l) /\ whole (pageYOffset l) /\
  whole (clientLeft l) /\ whole (clientTop l).

(** The page position of the pointer less the document offset of the
    element, in whole pixels. *)
Definition pixel_offset (l : Layout) (el : nat) (event : Event) : Z * Z :=
  let rect := getBoundingClientRect l el in
  (Qfloor (pageX event) -
     (Qfloor (rect_left rect) + Qfloor (pageXOffset l) - Qfloor (clientLeft l)),
   Qfloor (pageY event) -
     (Qfloor (rect_top rect) + Qfloor (pageYOffset l) - Qfloor (clientTop l))).

(** One event handled by the widget, nothing else touching the browser in
    between. *)
Definition handles_next (s s' : St) : Prop :=
  exists event : Event,
    s' = exec (onClick event) s \/ s' = exec (onMove event) s.

(** What holds of a widget from its construction on: it has its overlay,
    and while it is drawing it has a polygon to draw into. *)
Definition ready (w : Widget) : Prop :=
  is_Some (svg w) /\ (isDrawing w = true -> is_Some (polygon w)).

(** The node is in the document and is not the polygon the widget is
    drawing into. *)
Definition released (pg : nat) (s : St) : Prop :=
  (pg < length (nodes (dom s)))%nat /\ polygon (this s) <> Some pg.

(** The two listeners [initialize] binds for the widget of an element. *)
Definition bound_listeners (el : nat) : list Listener :=
  [ {| l_type := "click"; l_handler := OnClick; l_this := el |};
    {| l_type := "mousemove"; l_handler := OnMove; l_this := el |} ].

(** The two elements are the same but for their size, which the layout
    decides: same name, parent, attributes, inline style and listeners. *)
Definition same_markup (n n' : Node) : Prop :=
  tagName n' = tagName n /\ namespaceURI n' = namespaceURI n /\
  parentNode n' = parentNode n /\ attributes n' = attributes n /\
  style n' = style n /\ listeners n' = listeners n.

(** The [viewBox] that [injectSvg] gives the overlay of an element. *)
Definition viewBox_of (n : Node) : string :=
  String.concat " " [pretty 0; pretty 0; pretty (clientWidth n); pretty (clientHeight n)].

Module MoreSamples.

(** Options that rename the undo modifier and turn wrapping off; the
    prototype they inherit from carries a nested object. *)
Definition custom_options : value :=
  VObj [("regretKey", VStr "ctrlKey"); ("wrapImages", VBool false)] []
       (VObj [("theme", VObj [] [] VObjectPrototype); ("closeKey", VStr "ctrlKey")]
             [] VObjectPrototype).

(** An object whose properties are all inherited. *)
Definition inheriting_options : value :=
  VObj [] []
       (VObj [("fillColor", VNull); ("regretKey", VStr "ctrlKey")] [] VObjectPrototype).

Definition undo_click_2 : Event := Sample.click 1 1 [("metaKey", VBool true)].

Definition ctrl_click : Event := Sample.click 1 1 [("ctrlKey", VBool true)].

(** The widget object as the constructor has it when it calls
    [initialize], on the sample page. *)
Definition fresh (o : gmap string value) (el : nat) : St :=
  {| this := {| options := o; element := el;
                xmlns := "http://www.w3.org/2000/svg";
                svg := None; polygon := None;
                isDrawing := false; coords := [] |};
     dom := Sample.page |}.

Definition unwrapped_options : gmap string value :=
  <["wrapImages" := VBool false]> default_options.

(** What merging [custom_options] into the defaults gives. *)
Definition custom_merged : gmap string value :=
  <["regretKey" := VStr "ctrlKey"]> unwrapped_options.

Definition finalize_click : Event := Sample.click 7 7 [("shiftKey", VBool true)].

End MoreSamples.

End DrawMaps.

Import DrawMaps.

(** ** The coordinate mapper in double precision

    [getElementOffset] and [getMousePosition] once more, over the numbers
    the browser computes with: IEEE 754 binary64, where each [+] and [-]
    rounds its result.  The mapper reads the event and the layout and
    writes nothing, so the two functions take what they read as
    arguments. *)

Module F64.

Local Open Scope float_scope.

(** The page position of a pointer event. *)
Record Pointer : Type := { pageX : float; pageY : float }.

(** What the mapper reads of the layout: the bounding rectangle of the
    element, the scroll offsets of the window, and the border of the
    document element. *)
Record Geometry : Type := {
  rect_top : float;
  rect_left : float;
  pageXOffset : float;
  pageYOffset : float;
  clientTop : float;
  clientLeft : float
}.

Record Offset : Type := { top : float; left : float }.

Definition getElementOffset (g : Geometry) : Offset :=
  {| top := rect_top g + pageYOffset g - clientTop g;
     left := rect_left g + pageXOffset g - clientLeft g |}.

(** The rational number a finite double is; NaN and the infinities are
    none. *)
Definition exact (d : float) : option Q :=
  match Prim2SF d with
  | S754_zero _ => Some 0%Q
  | S754_finite sign m e =>
      Some ((if sign then -1 else 1) * (inject_Z (Z.pos m) * Qpower 2 e))%Q
  | S754_infinity _ | S754_nan => None
  end.

(** [Math.round]: a finite number goes to the nearest integer, a tie
    going up; NaN and the infinities come back as they are, and are no
    integer. *)
Definition Math_round (d : float) : option Z :=
  DrawMaps.Math_round <$> exact d.

Record Position : Type := { x : option Z; y : option Z }.

Definition getMousePosition (event : Pointer) (g : Geometry) : Position :=
  let offset := getElementOffset g in
  {| x := Math_round (pageX event - left offset);
     y := Math_round (pageY event - top offset) |}.

(** The double is finite and is the given rational. *)
Definition represents (d : float) (q : Q) : Prop :=
  exists q', exact d = Some q' /\ (q' == q)%Q.

(** An element at document offset [(10, 10)], the page not scrolled. *)
Definition at_10_10 : Geometry :=
  {| rect_top := 10; rect_left := 10;
     pageXOffset := 0; pageYOffset := 0; clientTop := 0; clientLeft := 0 |}.

(** A page scrolled by six tenths of a pixel, the element half a pixel
    from the edge of the viewport. *)
Definition scrolled_by_a_fraction : Geometry :=
  {| rect_top := 0x1p-1; rect_left := 0x1p-1;
     pageXOffset := 0x1.3333333333333p-1; pageYOffset := 0x1.3333333333333p-1;
     clientTop := 0; clientLeft := 0 |}.

End F64.

(** * Properties *)

(** Arithmetic on rationals stays folded during symbolic evaluation. *)
#[local] Arguments Qplus : simpl never.
#[local] Arguments Qminus : simpl never.
#[local] Arguments Qopp : simpl never.
#[local] Arguments Qfloor : simpl never.
#[local] Arguments Math_round : simpl never.

(** Unfolding the plumbing of the monad. *)
Ltac js_run :=
  unfold completion, exec, mbind, mret, M_bind, M_ret, when, deref, in_dom,
    zoom, set_this, bind, ret, gets, modify, throw in *;
  cbn in *.

(** ** The session operations *)

Section Session.

Implicit Types (s : St) (p : Position).

Lemma closeMap_spec s :
  closeMap s =
  (Ok tt, {| this := with_coords [] (with_polygon None (with_isDrawing false (this s)));
             dom := dom s |}).
Proof. reflexivity. Qed.

Lemma resetMaps_attached s sv :
  svg (this s) = Some sv ->
  resetMaps s =
  (Ok tt, {| this := with_coords [] (with_polygon None (with_isDrawing false (this s)));
             dom := exec (clear_innerHTML sv) (dom s) |}).
Proof.
  intros Hsv. unfold resetMaps. js_run. rewrite Hsv. reflexivity.
Qed.

(** C2.  Whatever the vertex list and the active flag were, [closeMap]
    (finalize) and [resetMaps] (clear-all, on a widget whose svg overlay
    exists, as it does for every widget that handles events) complete and
    leave an empty vertex list and [isDrawing = false]. *)
Theorem finalize_and_clearAll_reset_session s :
  (completion closeMap s = Ok tt /\
   coords (this (exec closeMap s)) = [] /\
   isDrawing (this (exec closeMap s)) = false) /\
  (forall sv, svg (this s) = Some sv ->
     completion resetMaps s = Ok tt /\
     coords (this (exec resetMaps s)) = [] /\
     isDrawing (this (exec resetMaps s)) = false).
Proof.
  split.
  - unfold completion, exec. rewrite closeMap_spec. auto.
  - intros sv Hsv. unfold completion, exec.
    rewrite (resetMaps_attached s sv Hsv). auto.
Qed.

Lemma regretPoint_eq s :
  regretPoint s =
  (Ok tt, {| this := with_coords (removelast (coords (this s))) (this s);
             dom := dom s |}).
Proof.
  destruct s as [[o e ns sv pg d cs] b].
  unfold regretPoint. js_run. destruct cs as [|c cs]; reflexivity.
Qed.

(** C4.  [regretPoint] (undo) never throws and never changes
    [isDrawing]: all it does is remove the last vertex when there is one.
    On an empty vertex list it completes and changes nothing at all. *)
Theorem undoVertex_empty_is_noop s :
  regretPoint s =
    (Ok tt, {| this := with_coords (removelast (coords (this s))) (this s);
               dom := dom s |}) /\
  isDrawing (this (exec regretPoint s)) = isDrawing (this s) /\
  coords (this (exec regretPoint s)) = removelast (coords (this s)) /\
  (coords (this s) = [] -> regretPoint s = (Ok tt, s)).
Proof.
  split; [apply regretPoint_eq |].
  unfold exec. rewrite regretPoint_eq.
  split; [reflexivity |]. split; [reflexivity |].
  destruct s as [[o e ns sv pg d cs] b]. cbn. now intros ->.
Qed.

(** C3.  Adding a vertex and undoing at once gives back the vertex list
    there was before the addition. *)
Theorem addVertex_then_undoVertex_roundtrip s p :
  completion (addVertex p;; regretPoint) s = Ok tt /\
  coords (this (exec (addVertex p;; regretPoint) s)) = coords (this s).
Proof.
  unfold addVertex, regretPoint. js_run.
  rewrite length_app, Nat.add_comm. cbn.
  rewrite removelast_last. auto.
Qed.

End Session.


(** ** The coordinate mapper *)

Section CoordinateMapper.

Implicit Types (s : St) (event : Event) (l : Layout).

Lemma Math_round_nearest (q : Q) : nearest_integer q (Math_round q).
Proof.
  unfold nearest_integer, Math_round.
  pose proof (Qfloor_le (q + (1 # 2))) as Hlo.
  pose proof (Qlt_floor (q + (1 # 2))) as Hhi.
  rewrite inject_Z_plus in Hhi.
  change (inject_Z 1) with 1%Q in Hhi.
  split; lra.
Qed.

Lemma Math_round_comp (q r : Q) : (q == r)%Q -> Math_round q = Math_round r.
Proof.
  intros E. unfold Math_round. apply Qfloor_comp. rewrite E. reflexivity.
Qed.

Lemma getMousePosition_eq s event :
  getMousePosition event s =
  (Ok {| x := Math_round (pageX event - spec_offsetLeft (layout (dom s)) (element (this s)));
         y := Math_round (pageY event - spec_offsetTop (layout (dom s)) (element (this s))) |},
   s).
Proof. reflexivity. Qed.

(** Over exact numbers: the mapper returns, without touching the state,
    the nearest integers to [pageX - (rect.left + pageXOffset - clientLeft)]
    and to [pageY - (rect.top + pageYOffset - clientTop)]. *)
Lemma getMousePosition_nearest s event :
  exists pos,
    getMousePosition event s = (Ok pos, s) /\
    nearest_integer
      (pageX event - spec_offsetLeft (layout (dom s)) (element (this s))) (x pos) /\
    nearest_integer
      (pageY event - spec_offsetTop (layout (dom s)) (element (this s))) (y pos).
Proof.
  eexists. split; [apply getMousePosition_eq |].
  split; apply Math_round_nearest.
Qed.

Lemma F64_Math_round_finite (d : float) (q : Q) :
  F64.exact d = Some q ->
  exists z, F64.Math_round d = Some z /\ nearest_integer q z.
Proof.
  intros E. unfold F64.Math_round. rewrite E.
  exists (Math_round q). split; [reflexivity | apply Math_round_nearest].
Qed.

Lemma F64_Math_round_none (d : float) :
  F64.exact d = None -> F64.Math_round d = None.
Proof. intros E. unfold F64.Math_round. now rewrite E. Qed.

(** C6.  For every pointer event and every geometry, in the double
    precision arithmetic of the code: the offset of the element is
    [rect.left + pageXOffset - clientLeft] and
    [rect.top + pageYOffset - clientTop], and the mapper returns
    [Math.round(pageX - offsetLeft)] and [Math.round(pageY - offsetTop)];
    whenever such a difference is a finite number, the coordinate is an
    integer, the one nearest to that number (the upper one of two equally
    near), and otherwise it is no integer. *)
Theorem coordinate_mapper_formula (event : F64.Pointer) (g : F64.Geometry) :
  let offsetLeft := (F64.rect_left g + F64.pageXOffset g - F64.clientLeft g)%float in
  let offsetTop := (F64.rect_top g + F64.pageYOffset g - F64.clientTop g)%float in
  let dx := (F64.pageX event - offsetLeft)%float in
  let dy := (F64.pageY event - offsetTop)%float in
  F64.getElementOffset g = {| F64.top := offsetTop; F64.left := offsetLeft |} /\
  F64.getMousePosition event g =
    {| F64.x := F64.Math_round dx; F64.y := F64.Math_round dy |} /\
  (forall q, F64.exact dx = Some q ->
     exists z, F64.x (F64.getMousePosition event g) = Some z /\ nearest_integer q z) /\
  (forall q, F64.exact dy = Some q ->
     exists z, F64.y (F64.getMousePosition event g) = Some z /\ nearest_integer q z) /\
  (F64.exact dx = None -> F64.x (F64.getMousePosition event g) = None) /\
  (F64.exact dy = None -> F64.y (F64.getMousePosition event g) = None).
Proof.
  intros offsetLeft offsetTop dx dy.
  split; [reflexivity |]. split; [reflexivity |].
  split; [intros q; apply F64_Math_round_finite |].
  split; [intros q; apply F64_Math_round_finite |].
  split; apply F64_Math_round_none.
Qed.

(** The exact mapper and the one in double precision return the same
    point whenever the doubles are the rationals of the exact model and
    the differences the code computes are exact. *)
Lemma exact_mapper_agrees s event (ev : F64.Pointer) (g : F64.Geometry) :
  let offset := F64.getElementOffset g in
  F64.represents (F64.pageX ev - F64.left offset)%float
    (pageX event - spec_offsetLeft (layout (dom s)) (element (this s))) ->
  F64.represents (F64.pageY ev - F64.top offset)%float
    (pageY event - spec_offsetTop (layout (dom s)) (element (this s))) ->
  exists pos,
    completion (getMousePosition event) s = Ok pos /\
    F64.getMousePosition ev g = {| F64.x := Some (x pos); F64.y := Some (y pos) |}.
Proof.
  intros offset (qx & Ex & Hx) (qy & Ey & Hy).
  unfold completion. rewrite getMousePosition_eq. eexists. split; [reflexivity |].
  unfold F64.getMousePosition, F64.Math_round. fold offset. rewrite Ex, Ey.
  cbn [fmap option_fmap option_map x y].
  now rewrite (Math_round_comp _ _ Hx), (Math_round_comp _ _ Hy).
Qed.

Lemma scrollBy_offsetLeft l el dx dy :
  (spec_offsetLeft (scrollBy dx dy l) el == spec_offsetLeft l el)%Q.
Proof. unfold spec_offsetLeft, scrollBy. cbn. ring. Qed.

Lemma scrollBy_offsetTop l el dx dy :
  (spec_offsetTop (scrollBy dx dy l) el == spec_offsetTop l el)%Q.
Proof. unfold spec_offsetTop, scrollBy. cbn. ring. Qed.


End CoordinateMapper.

(** ** The handlers *)

Section Handlers.

Implicit Types (s : St) (event : Event).

Lemma string_app_assoc (a b c : string) : (a ++ (b ++ c) = (a ++ b) ++ c)%string.
Proof.
  induction a as [|ch a IH]; [reflexivity |].
  change (String ch (a ++ (b ++ c)) = String ch ((a ++ b) ++ c))%string.
  now rewrite IH.
Qed.

Lemma concat_cons_cons (sep a : string) (l : list string) :
  l <> [] -> String.concat sep (a :: l) = (a ++ sep ++ String.concat sep l)%string.
Proof. destruct l; [congruence | reflexivity]. Qed.

(** Joining the vertices one by one and joining their numbers give the
    same string. *)
Lemma coords_toString_flat (cs : list (Z * Z)) :
  coords_toString cs = points_attribute cs.
Proof.
  unfold coords_toString, points_attribute.
  induction cs as [|c cs IH]; [reflexivity |].
  destruct cs as [|c' cs].
  - reflexivity.
  - cbn [map flat_map app] in *.
    rewrite (concat_cons_cons _ (vertex_toString c)) by discriminate.
    rewrite (concat_cons_cons _ (pretty (fst c))) by discriminate.
    rewrite (concat_cons_cons _ (pretty (snd c))) by discriminate.
    rewrite IH. unfold vertex_toString. cbn [String.concat].
    now rewrite <- !string_app_assoc.
Qed.

Lemma points_attribute_snoc (cs : list (Z * Z)) (px py : Z) :
  cs <> [] ->
  String.concat "," [coords_toString cs; pretty px; pretty py] =
  points_attribute (cs ++ [(px, py)]).
Proof.
  intros Hne. rewrite coords_toString_flat. unfold points_attribute.
  induction cs as [|c cs IH]; [congruence |].
  destruct cs as [|c' cs].
  - cbn. now rewrite <- !string_app_assoc.
  - specialize (IH ltac:(discriminate)).
    cbn [map flat_map app] in *.
    rewrite (concat_cons_cons _ (pretty (fst c))) by discriminate.
    rewrite (concat_cons_cons _ (pretty (snd c))) by discriminate.
    rewrite (concat_cons_cons _ (pretty (fst c)) (_ :: _)) by discriminate.
    rewrite (concat_cons_cons _ (pretty (snd c)) (_ :: _)) by discriminate.
    rewrite <- IH. cbn [String.concat].
    now rewrite <- !string_app_assoc.
Qed.

Lemma onMove_same_this s event : this (exec (onMove event) s) = this s.
Proof.
  unfold onMove, renderNewPoint, getMousePosition, getElementOffset. js_run.
  destruct (isDrawing (this s)); cbn; [| reflexivity].
  destruct (coords (this s)); cbn; [reflexivity |].
  destruct (polygon (this s)); reflexivity.
Qed.

(** C8.  A pointer move leaves the widget object as it was, so the
    vertex list and [isDrawing] are the same after the handler as before.
    While a polygon is being drawn, the handler renders the stored
    vertices followed by the mapped pointer position into the polygon's
    [points] attribute, and still stores nothing. *)
Theorem pointer_move_preserves_session s event :
  this (exec (onMove event) s) = this s /\
  coords (this (exec (onMove event) s)) = coords (this s) /\
  isDrawing (this (exec (onMove event) s)) = isDrawing (this s) /\
  (forall pg pos,
     isDrawing (this s) = true ->
     coords (this s) <> [] ->
     polygon (this s) = Some pg ->
     completion (getMousePosition event) s = Ok pos ->
     onMove event s =
     (Ok tt,
      {| this := this s;
         dom := alter_node
                  (with_attribute "points"
                     (points_attribute (coords (this s) ++ [(x pos, y pos)])))
                  pg (dom s) |})).
Proof.
  pose proof (onMove_same_this s event) as Hthis.
  split; [exact Hthis |]. rewrite Hthis. split; [reflexivity |].
  split; [reflexivity |].
  intros pg pos Hdraw Hne Hpg Hpos.
  unfold completion in Hpos. rewrite getMousePosition_eq in Hpos.
  cbn [fst] in Hpos. injection Hpos as <-.
  rewrite <- points_attribute_snoc by assumption.
  unfold onMove, renderNewPoint. js_run.
  rewrite Hdraw.
  destruct (coords (this s)) as [|c cs] eqn:E; [congruence |].
  cbn. rewrite getMousePosition_eq. cbn. rewrite Hpg. cbn. rewrite E.
  reflexivity.
Qed.

Lemma onClick_eq s event : onClick event s = (ensurePolygon;; dispatch event) s.
Proof. reflexivity. Qed.

(** Creating the polygon changes neither the options nor the session. *)
Lemma ensurePolygon_frame s :
  same_setup s (exec ensurePolygon s) /\
  coords (this (exec ensurePolygon s)) = coords (this s) /\
  isDrawing (this (exec ensurePolygon s)) = isDrawing (this s).
Proof.
  destruct s as [[o e ns sv pg d cs] b].
  unfold same_setup, ensurePolygon, injectPolygon. js_run.
  destruct pg as [pg|]; cbn; [tauto |].
  destruct sv as [sv|]; cbn; tauto.
Qed.

Lemma ensurePolygon_attached s sv :
  svg (this s) = Some sv ->
  completion ensurePolygon s = Ok tt /\
  is_Some (polygon (this (exec ensurePolygon s))).
Proof.
  destruct s as [[o e ns sv' pg d cs] b]. cbn. intros ->.
  unfold ensurePolygon, injectPolygon. js_run.
  destruct pg as [pg|]; cbn; split; eauto.
Qed.

Lemma held_after_ensurePolygon s event name :
  held event (this (exec ensurePolygon s)) name = held event (this s) name.
Proof.
  destruct (ensurePolygon_frame s) as [(Hopt & _) _].
  unfold held, option_of. now rewrite Hopt.
Qed.

Lemma dispatch_undo s event :
  held event (this s) "regretKey" = true -> dispatch event s = regretPoint s.
Proof. unfold held, dispatch. js_run. now intros ->. Qed.

Lemma dispatch_finalize s event :
  held event (this s) "regretKey" = false ->
  held event (this s) "closeKey" = true ->
  dispatch event s = closeMap s.
Proof. unfold held, dispatch. js_run. now intros -> ->. Qed.

Lemma dispatch_clearAll s event :
  held event (this s) "regretKey" = false ->
  held event (this s) "closeKey" = false ->
  held event (this s) "resetKey" = true ->
  dispatch event s = resetMaps s.
Proof. unfold held, dispatch. js_run. now intros -> -> ->. Qed.

Lemma dispatch_add s event :
  held event (this s) "regretKey" = false ->
  held event (this s) "closeKey" = false ->
  held event (this s) "resetKey" = false ->
  dispatch event s = addMappedVertex event s.
Proof. unfold held, dispatch. js_run. now intros -> -> ->. Qed.

(** After the polygon is ensured, the handler goes on with [m] when the
    dispatch on the state reached does. *)
Lemma onClick_then s event (m : M St unit) :
  (forall s', s' = exec ensurePolygon s -> dispatch event s' = m s') ->
  onClick event s = (ensurePolygon;; m) s.
Proof.
  intros H. rewrite onClick_eq. js_run.
  specialize (H _ eq_refl).
  destruct (ensurePolygon s) as [[[]|e] s']; cbn in *; [exact H | reflexivity].
Qed.

Lemma length_removelast_le {A} (l : list A) :
  (length (removelast l) <= length l)%nat.
Proof. rewrite removelast_firstn_len, length_take. lia. Qed.

Lemma modifier_action_adds_nothing s (m : M St unit) :
  (m = regretPoint \/ m = closeMap \/ m = resetMaps) ->
  (length (coords (this (exec (ensurePolygon;; m) s))) <= length (coords (this s)))%nat.
Proof.
  intros Hm.
  destruct (ensurePolygon_frame s) as (_ & Hcs & _).
  js_run. destruct (ensurePolygon s) as [[[]|e] s']; cbn in *;
    rewrite <- Hcs; clear Hcs; [| lia].
  destruct s' as [[o e ns sv pg d cs] b].
  destruct Hm as [-> | [-> | ->]].
  - rewrite regretPoint_eq. apply length_removelast_le.
  - rewrite closeMap_spec. cbn. lia.
  - unfold resetMaps. js_run. destruct sv; cbn; lia.
Qed.

Lemma same_setup_trans s1 s2 s3 :
  same_setup s1 s2 -> same_setup s2 s3 -> same_setup s1 s3.
Proof. unfold same_setup. intuition congruence. Qed.

Lemma ensurePolygon_ok s sv :
  svg (this s) = Some sv ->
  exists s1,
    ensurePolygon s = (Ok tt, s1) /\ same_setup s s1 /\
    coords (this s1) = coords (this s).
Proof.
  intros Hsv.
  destruct (ensurePolygon_attached s sv Hsv) as [Hok _].
  destruct (ensurePolygon_frame s) as (Hsame & Hcs & _).
  unfold completion, exec in *.
  destruct (ensurePolygon s) as [[[]|e] s1]; [| discriminate].
  exists s1. auto.
Qed.

Lemma onClick_add_run s event sv :
  svg (this s) = Some sv ->
  plain (this s) event ->
  exists s',
    onClick event s = (Ok tt, s') /\
    same_setup s s' /\
    coords (this s') =
      (coords (this s) ++ [mapped (layout (dom s)) (element (this s)) event])%list /\
    isDrawing (this s') = true /\
    is_Some (polygon (this s')).
Proof.
  intros Hsv (Hu & Hf & Hc).
  destruct (ensurePolygon_ok s sv Hsv) as (s1 & E & Hsame & Hcs).
  destruct (ensurePolygon_attached s sv Hsv) as [_ Hpg].
  unfold exec in Hpg. rewrite E in Hpg. cbn in Hpg.
  assert (Hclick : onClick event s = addMappedVertex event s1).
  { rewrite (onClick_then s event (addMappedVertex event)).
    - js_run. now rewrite E.
    - intros s' ->. apply dispatch_add; now rewrite held_after_ensurePolygon. }
  rewrite Hclick. unfold addMappedVertex, addVertex. js_run.
  rewrite getMousePosition_eq. cbn.
  eexists. split; [reflexivity |]. cbn.
  destruct Hsame as (Ho & He & Hx & Hs & Hl).
  rewrite Hcs, Hl, He. unfold same_setup. cbn. auto 10.
Qed.

Lemma onClick_undo_run s event sv :
  svg (this s) = Some sv ->
  held event (this s) "regretKey" = true ->
  exists s',
    onClick event s = (Ok tt, s') /\
    same_setup s s' /\
    coords (this s') = removelast (coords (this s)) /\
    isDrawing (this s') = isDrawing (this s).
Proof.
  intros Hsv Hu.
  destruct (ensurePolygon_ok s sv Hsv) as (s1 & E & Hsame & Hcs).
  destruct (ensurePolygon_frame s) as (_ & _ & Hd).
  unfold exec in Hd. rewrite E in Hd. cbn in Hd.
  assert (Hc : onClick event s = regretPoint s1).
  { rewrite (onClick_then s event regretPoint).
    - js_run. now rewrite E.
    - intros s' ->. apply dispatch_undo. now rewrite held_after_ensurePolygon. }
  rewrite Hc, regretPoint_eq. eexists. split; [reflexivity |]. cbn.
  rewrite Hcs, Hd. split; [| auto].
  eapply same_setup_trans; [exact Hsame |]. unfold same_setup. cbn. tauto.
Qed.

Lemma onClick_finalize_run s event sv :
  svg (this s) = Some sv ->
  held event (this s) "regretKey" = false ->
  held event (this s) "closeKey" = true ->
  exists s',
    onClick event s = (Ok tt, s') /\
    coords (this s') = [] /\ isDrawing (this s') = false /\ polygon (this s') = None.
Proof.
  intros Hsv Hu Hf.
  destruct (ensurePolygon_ok s sv Hsv) as (s1 & E & _ & _).
  rewrite (onClick_then s event closeMap).
  - js_run. rewrite E. cbn. eauto.
  - intros s' ->. apply dispatch_finalize; now rewrite held_after_ensurePolygon.
Qed.

Lemma onClick_clear_run s event sv :
  svg (this s) = Some sv ->
  held event (this s) "regretKey" = false ->
  held event (this s) "closeKey" = false ->
  held event (this s) "resetKey" = true ->
  exists s',
    onClick event s = (Ok tt, s') /\
    coords (this s') = [] /\ isDrawing (this s') = false /\ polygon (this s') = None.
Proof.
  intros Hsv Hu Hf Hc.
  destruct (ensurePolygon_ok s sv Hsv) as (s1 & E & (_ & _ & _ & Hsv1 & _) & _).
  rewrite Hsv in Hsv1.
  rewrite (onClick_then s event resetMaps).
  - js_run. rewrite E, (resetMaps_attached s1 sv Hsv1). cbn. eauto.
  - intros s' ->. apply dispatch_clearAll; now rewrite held_after_ensurePolygon.
Qed.

(** C1.  A click performs one action, chosen by the modifiers the event
    has, in a fixed order of priority: with the undo modifier only
    [regretPoint] runs; else with the finalize modifier only [closeMap]
    runs; else with the clear-all modifier only [resetMaps] runs; else
    the pointer is mapped and the vertex added.  Whichever other modifiers
    are held, a modifier action adds no vertex.  On a widget with its
    overlay the click completes, and what it leaves is what that one
    action does: the undo removes the last vertex and keeps [isDrawing];
    finalize and clear-all leave no vertex and [isDrawing] unset; the
    plain click appends the position the mapper returns for the event,
    keeps the vertices there were, and sets [isDrawing]. *)
Theorem click_performs_one_action_by_priority s event :
  let undo := held event (this s) "regretKey" in
  let finalize := held event (this s) "closeKey" in
  let clear := held event (this s) "resetKey" in
  let s' := exec (onClick event) s in
  (undo = true ->
     onClick event s = (ensurePolygon;; regretPoint) s) /\
  (undo = false -> finalize = true ->
     onClick event s = (ensurePolygon;; closeMap) s) /\
  (undo = false -> finalize = false -> clear = true ->
     onClick event s = (ensurePolygon;; resetMaps) s) /\
  (undo = false -> finalize = false -> clear = false ->
     onClick event s = (ensurePolygon;; addMappedVertex event) s) /\
  (undo || finalize || clear = true ->
     (length (coords (this s')) <= length (coords (this s)))%nat) /\
  (forall sv, svg (this s) = Some sv ->
     completion (onClick event) s = Ok tt /\
     (undo = true ->
        coords (this s') = removelast (coords (this s)) /\
        isDrawing (this s') = isDrawing (this s)) /\
     (undo = false -> finalize = true ->
        coords (this s') = [] /\ isDrawing (this s') = false) /\
     (undo = false -> finalize = false -> clear = true ->
        coords (this s') = [] /\ isDrawing (this s') = false) /\
     (undo = false -> finalize = false -> clear = false ->
        exists pos,
          completion (getMousePosition event) s = Ok pos /\
          coords (this s') = (coords (this s) ++ [(x pos, y pos)])%list /\
          isDrawing (this s') = true)).
Proof.
  intros undo finalize clear s'.
  assert (H1 : undo = true -> onClick event s = (ensurePolygon;; regretPoint) s).
  { intros Hu. apply onClick_then. intros s1 ->.
    apply dispatch_undo. now rewrite held_after_ensurePolygon. }
  assert (H2 : undo = false -> finalize = true ->
               onClick event s = (ensurePolygon;; closeMap) s).
  { intros Hu Hf. apply onClick_then. intros s1 ->.
    apply dispatch_finalize; now rewrite held_after_ensurePolygon. }
  assert (H3 : undo = false -> finalize = false -> clear = true ->
               onClick event s = (ensurePolygon;; resetMaps) s).
  { intros Hu Hf Hc. apply onClick_then. intros s1 ->.
    apply dispatch_clearAll; now rewrite held_after_ensurePolygon. }
  assert (H4 : undo = false -> finalize = false -> clear = false ->
               onClick event s = (ensurePolygon;; addMappedVertex event) s).
  { intros Hu Hf Hc. apply onClick_then. intros s1 ->.
    apply dispatch_add; now rewrite held_after_ensurePolygon. }
  split; [exact H1 |]. split; [exact H2 |]. split; [exact H3 |].
  split; [exact H4 |]. split.
  - intros Hheld. subst s'. unfold exec.
    destruct undo eqn:Eu; [| destruct finalize eqn:Ef; [| destruct clear eqn:Ec]].
    + rewrite H1 by reflexivity. apply modifier_action_adds_nothing; auto.
    + rewrite H2 by reflexivity. apply modifier_action_adds_nothing; auto.
    + rewrite H3 by reflexivity. apply modifier_action_adds_nothing; auto.
    + discriminate.
  - intros sv Hsv. subst s'. unfold completion, exec.
    destruct undo eqn:Eu; [| destruct finalize eqn:Ef; [| destruct clear eqn:Ec]].
    + destruct (onClick_undo_run s event sv Hsv Eu) as (s1 & -> & _ & Hcs & Hd).
      cbn. repeat split; auto; discriminate.
    + destruct (onClick_finalize_run s event sv Hsv Eu Ef) as (s1 & -> & Hcs & Hd & _).
      cbn. repeat split; auto; discriminate.
    + destruct (onClick_clear_run s event sv Hsv Eu Ef Ec) as (s1 & -> & Hcs & Hd & _).
      cbn. repeat split; auto; discriminate.
    + destruct (onClick_add_run s event sv Hsv (conj Eu (conj Ef Ec)))
        as (s1 & -> & _ & Hcs & Hd & _).
      cbn. split; [reflexivity |]. repeat split; try discriminate.
      intros _ _ _. eexists. split; [rewrite getMousePosition_eq; reflexivity |].
      split; [exact Hcs | exact Hd].
Qed.

(** *** What a plain click and an undo click do to an initialised widget *)

Lemma onClick_undo_effect s event sv :
  svg (this s) = Some sv ->
  held event (this s) "regretKey" = true ->
  same_setup s (exec (onClick event) s) /\
  coords (this (exec (onClick event) s)) = removelast (coords (this s)).
Proof.
  intros Hsv Hu.
  destruct (ensurePolygon_ok s sv Hsv) as (s1 & E & Hsame & Hcs).
  assert (Hc : onClick event s = regretPoint s1).
  { rewrite (onClick_then s event regretPoint).
    - js_run. now rewrite E.
    - intros s' ->. apply dispatch_undo. now rewrite held_after_ensurePolygon. }
  unfold exec. rewrite Hc, regretPoint_eq. cbn. rewrite Hcs. split; [| reflexivity].
  eapply same_setup_trans; [exact Hsame |]. unfold same_setup. cbn. tauto.
Qed.

Lemma onClick_add_effect s event sv :
  svg (this s) = Some sv ->
  held event (this s) "regretKey" = false ->
  held event (this s) "closeKey" = false ->
  held event (this s) "resetKey" = false ->
  same_setup s (exec (onClick event) s) /\
  coords (this (exec (onClick event) s)) =
  (coords (this s) ++
   [(Math_round (pageX event - spec_offsetLeft (layout (dom s)) (element (this s))),
     Math_round (pageY event - spec_offsetTop (layout (dom s)) (element (this s))))])%list.
Proof.
  intros Hsv Hu Hf Hc.
  destruct (ensurePolygon_ok s sv Hsv) as (s1 & E & Hsame & Hcs).
  assert (Hclick : onClick event s = addMappedVertex event s1).
  { rewrite (onClick_then s event (addMappedVertex event)).
    - js_run. now rewrite E.
    - intros s' ->. apply dispatch_add; now rewrite held_after_ensurePolygon. }
  unfold exec. rewrite Hclick.
  unfold addMappedVertex, addVertex. js_run. rewrite getMousePosition_eq. cbn.
  rewrite Hcs.
  destruct Hsame as (Ho & He & Hx & Hs & Hl). rewrite Hl, He.
  split; [| reflexivity].
  unfold same_setup. cbn. auto.
Qed.

(** C5 (as the code has it).  On a widget with the default modifier
    keys, no vertex yet, and its element at document offset [(10, 10)]: a
    plain click at page [(110, 60)] stores [(100, 50)]; a click at
    [(130, 80)] with the undo modifier then removes that vertex and
    leaves the list empty; a plain click at [(130, 80)] then stores
    [(120, 70)] as the only vertex. *)
Theorem click_undo_click_scenario s sv :
  svg (this s) = Some sv ->
  coords (this s) = [] ->
  option_of (this s) "regretKey" = VStr "metaKey" ->
  option_of (this s) "closeKey" = VStr "shiftKey" ->
  option_of (this s) "resetKey" = VStr "altKey" ->
  (spec_offsetLeft (layout (dom s)) (element (this s)) == 10)%Q ->
  (spec_offsetTop (layout (dom s)) (element (this s)) == 10)%Q ->
  let s1 := exec (onClick Sample.plain_click_1) s in
  let s2 := exec (onClick Sample.undo_click) s1 in
  let s3 := exec (onClick Sample.plain_click_2) s2 in
  coords (this s1) = [(100, 50)] /\
  coords (this s2) = [] /\
  coords (this s3) = [(120, 70)].
Proof.
  intros Hsv Hcs Hk1 Hk2 Hk3 HL HT s1 s2 s3.
  assert (Hplain : forall s' event,
             props event = ∅ -> options (this s') = options (this s) ->
             held event (this s') "regretKey" = false /\
             held event (this s') "closeKey" = false /\
             held event (this s') "resetKey" = false).
  { intros s' event Hp Ho. unfold held, option_of in *. rewrite Ho.
    rewrite Hk1, Hk2, Hk3. unfold event_flag. rewrite Hp. auto. }
  (* first click *)
  destruct (Hplain s Sample.plain_click_1 eq_refl eq_refl) as (A1 & A2 & A3).
  destruct (onClick_add_effect s _ sv Hsv A1 A2 A3) as [Hsame1 Hc1].
  fold s1 in Hsame1, Hc1. rewrite Hcs in Hc1.
  rewrite (Math_round_comp _ (110 - 10)) in Hc1 by (now rewrite HL).
  rewrite (Math_round_comp (_ - spec_offsetTop _ _) (60 - 10)) in Hc1
    by (now rewrite HT).
  change (coords (this s1) = [(100, 50)]) in Hc1.
  split; [exact Hc1 |].
  (* the click with the undo modifier *)
  destruct Hsame1 as (Ho1 & He1 & _ & Hs1 & Hl1).
  assert (B : held Sample.undo_click (this s1) "regretKey" = true).
  { unfold held, option_of. rewrite Ho1. unfold option_of in Hk1. now rewrite Hk1. }
  rewrite Hsv in Hs1.
  destruct (onClick_undo_effect s1 _ sv Hs1 B) as [Hsame2 Hc2].
  fold s2 in Hsame2, Hc2. rewrite Hc1 in Hc2. cbn in Hc2.
  split; [exact Hc2 |].
  (* the second plain click *)
  destruct Hsame2 as (Ho2 & He2 & _ & Hs2 & Hl2).
  rewrite Hs1 in Hs2.
  destruct (Hplain s2 Sample.plain_click_2 eq_refl ltac:(congruence))
    as (C1 & C2 & C3).
  destruct (onClick_add_effect s2 _ sv Hs2 C1 C2 C3) as [_ Hc3].
  fold s3 in Hc3. rewrite Hc2, Hl2, Hl1, He2, He1 in Hc3.
  rewrite (Math_round_comp _ (130 - 10)) in Hc3 by (now rewrite HL).
  rewrite (Math_round_comp (_ - spec_offsetTop _ _) (80 - 10)) in Hc3
    by (now rewrite HT).
  exact Hc3.
Qed.

(** *** What no handler changes *)

Lemma dispatch_same_setup s event : same_setup s (exec (dispatch event) s).
Proof.
  destruct s as [[o e ns sv pg d cs] b].
  unfold same_setup, dispatch, regretPoint, closeMap, resetMaps, addVertex,
    getMousePosition, getElementOffset, clear_innerHTML.
  js_run.
  destruct (event_flag event _); cbn.
  { destruct cs; cbn; tauto. }
  destruct (event_flag event _); cbn; [tauto |].
  destruct (event_flag event _); cbn; [| tauto].
  destruct sv; cbn; tauto.
Qed.

Lemma onClick_same_setup s event : same_setup s (exec (onClick event) s).
Proof.
  destruct (ensurePolygon_frame s) as [Hsame _].
  unfold exec in *. rewrite onClick_eq. js_run.
  destruct (ensurePolygon s) as [[[]|e] s1]; cbn in *; [| exact Hsame].
  eapply same_setup_trans; [exact Hsame | apply dispatch_same_setup].
Qed.

(** However many events a widget has handled, it still has the overlay,
    the element and the options it was constructed with. *)
Lemma handled_keeps_construction s s' :
  rtc handles s s' ->
  svg (this s') = svg (this s) /\
  element (this s') = element (this s) /\
  options (this s') = options (this s).
Proof.
  induction 1 as [s | s s1 s' (event & b & [-> | ->]) _ IH]; [auto | |].
  - destruct (onClick_same_setup {| this := this s; dom := b |} event)
      as (Ho & He & _ & Hs & _).
    cbn in *. intuition congruence.
  - rewrite onMove_same_this in IH. exact IH.
Qed.

End Handlers.

(** ** Merging the options *)

Section Options.

Implicit Types (obj opts : value) (out o : gmap string value) (keys : list string).

Lemma assoc_is_Some (k : string) (l : list (string * value)) :
  is_Some (assoc k l) <-> k ∈ l.*1.
Proof.
  induction l as [|[k' v'] l IH]; cbn.
  - split; [intros [? ?]; discriminate | intros H; inversion H].
  - destruct (String.eqb_spec k k') as [-> | Hne].
    + split; [intros _; apply list_elem_of_here | eauto].
    + rewrite IH. split; [apply list_elem_of_further |].
      intros H. apply elem_of_cons in H as [? | ?]; [congruence | assumption].
Qed.

Lemma has_own_enumerable obj key :
  key ∈ (own_props obj).*1 -> has_own obj key = true.
Proof.
  intros H. apply bool_decide_eq_true, assoc_is_Some.
  rewrite fmap_app. apply elem_of_app. auto.
Qed.

Lemma for_in_own obj key : key ∈ (own_props obj).*1 -> key ∈ for_in_keys obj.
Proof.
  destruct obj; cbn; auto. intros H. apply elem_of_app. auto.
Qed.

(** Of the keys that [for ... in] visits, the built-in test keeps the own
    enumerable ones. *)
Lemma for_in_has_own obj key :
  key ∈ for_in_keys obj -> has_own obj key = true -> key ∈ (own_props obj).*1.
Proof.
  destruct obj; cbn; auto.
  intros Hin Hown. apply elem_of_app in Hin as [H | H]; [exact H |].
  apply list_elem_of_filter in H as [Hn _]. exfalso. apply Hn.
  apply assoc_is_Some. apply bool_decide_eq_true in Hown. exact Hown.
Qed.

Lemma builtin_hasOwnProperty obj key :
  hasOwnProperty_of obj = Builtin -> hasOwnProperty obj key = Ok (has_own obj key).
Proof. unfold hasOwnProperty. now intros ->. Qed.

(** With the built-in [hasOwnProperty], one round of the loop either goes
    on or throws the ReferenceError. *)
Lemma extend_key_cases obj out key :
  hasOwnProperty_of obj = Builtin ->
  (has_own obj key = true /\ typeof (get obj key) = "object" /\
   extend_key obj out key = Throw (ReferenceError "deepExtend")) \/
  ((has_own obj key = true -> typeof (get obj key) <> "object") /\
   exists out', extend_key obj out key = Ok out').
Proof.
  intros Hb. unfold extend_key. rewrite (builtin_hasOwnProperty _ _ Hb).
  destruct (has_own obj key); [| right; split; [discriminate | eauto]].
  destruct (String.eqb_spec (typeof (get obj key)) "object") as [E | E].
  - left. auto.
  - right. split; [auto | eauto].
Qed.

Lemma extend_keys_throws obj out keys key :
  hasOwnProperty_of obj = Builtin ->
  key ∈ keys ->
  has_own obj key = true ->
  typeof (get obj key) = "object" ->
  extend_keys obj out keys = Throw (ReferenceError "deepExtend").
Proof.
  intros Hb Hin Hown Hty. revert out.
  induction keys as [|k keys IH]; intros out; [inversion Hin |].
  cbn. destruct (extend_key_cases obj out k Hb) as [(_ & _ & ->) | (Hk & out' & ->)].
  - reflexivity.
  - apply IH. apply elem_of_cons in Hin as [-> | Hin]; [| exact Hin].
    exfalso. exact (Hk Hown Hty).
Qed.

Lemma extend_keys_completes obj out keys :
  hasOwnProperty_of obj = Builtin ->
  (forall key, key ∈ keys -> has_own obj key = true -> typeof (get obj key) <> "object") ->
  exists out', extend_keys obj out keys = Ok out'.
Proof.
  intros Hb Hnone. revert out.
  induction keys as [|k keys IH]; intros out; [cbn; eauto |].
  cbn. destruct (extend_key_cases obj out k Hb) as [(Ho & Ht & _) | (_ & out' & ->)].
  - exfalso. exact (Hnone k ltac:(apply list_elem_of_here) Ho Ht).
  - apply IH. intros key Hin. apply Hnone. now apply list_elem_of_further.
Qed.

Lemma extend_defaults :
  extend_keys defaults ∅ (for_in_keys defaults) = Ok default_options.
Proof. vm_compute. reflexivity. Qed.

Lemma extend_unfold (opts : value) :
  extend ∅ [defaults; opts] =
  if ToBoolean opts
  then extend_keys opts default_options (for_in_keys opts)
  else Ok default_options.
Proof.
  cbn [extend]. change (negb (ToBoolean defaults)) with false. cbn [negb].
  rewrite extend_defaults.
  destruct (ToBoolean opts); cbn [negb]; [| reflexivity].
  destruct (extend_keys opts default_options (for_in_keys opts)); reflexivity.
Qed.

Lemma chars_from_assoc (key s : string) (i : nat) (l : list (string * value)) :
  assoc key (chars_from i s ++ l)%list =
  match assoc key (chars_from i s) with
  | Some v => Some v
  | None => assoc key l
  end /\
  forall v, assoc key (chars_from i s) = Some v -> typeof v = "string".
Proof.
  revert i. induction s as [|c s IH]; intros i; cbn; [split; [reflexivity | discriminate] |].
  destruct (String.eqb key (pretty i)); [| apply IH].
  split; [reflexivity |]. intros v [= <-]. reflexivity.
Qed.

(** Only a truthy value has an object-valued own property. *)
Lemma object_valued_truthy (v : value) :
  has_object_valued_property v -> ToBoolean v = true.
Proof.
  intros (key & Hown & Hty).
  destruct v; cbn in Hown; try (inversion Hown; fail); try reflexivity.
  exfalso. apply assoc_is_Some in Hown as [u Hu].
  unfold get in Hty. cbn [get_property own_props hidden_props] in Hty.
  destruct (chars_from_assoc key s 0 [("length", VNum (Z.of_nat (String.length s)))])
    as [E Hstr].
  rewrite E, Hu in Hty. change (typeof u = "object") in Hty.
  rewrite (Hstr u Hu) in Hty. discriminate.
Qed.

Lemma extend_object_valued opts :
  hasOwnProperty_of opts = Builtin ->
  has_object_valued_property opts ->
  extend ∅ [defaults; opts] = Throw (ReferenceError "deepExtend").
Proof.
  intros Hb Hobj. rewrite extend_unfold, (object_valued_truthy opts Hobj).
  destruct Hobj as (key & Hown & Hty).
  eapply extend_keys_throws; eauto using for_in_own, has_own_enumerable.
Qed.

(** C10 (as the code has it).  For an options argument whose
    [hasOwnProperty] is the built-in one (and which has no function for
    [extend] to assign to [__proto__]): when it has an own enumerable
    property whose value has [typeof] ["object"] (a nested object, an
    array or [null]), merging the options throws a ReferenceError for
    [deepExtend], and so does the constructor, before anything is done to
    the document; when no own enumerable property has such a value, the
    merge completes.  Without options the merge completes. *)
Theorem object_valued_option_throws_ReferenceError (opts : value) :
  hasOwnProperty_of opts = Builtin ->
  keeps_prototype opts = true ->
  (has_object_valued_property opts ->
     extend ∅ [defaults; opts] = Throw (ReferenceError "deepExtend") /\
     forall el w, drawMaps el opts w = (Throw (ReferenceError "deepExtend"), w)) /\
  ((forall key, key ∈ (own_props opts).*1 -> typeof (get opts key) <> "object") ->
     exists o, extend ∅ [defaults; opts] = Ok o) /\
  extend ∅ [defaults; VUndefined] = Ok default_options.
Proof.
  intros Hb _. split; [| split].
  - intros Hobj.
    pose proof (extend_object_valued opts Hb Hobj) as E.
    split; [exact E |].
    intros el w. unfold drawMaps. now rewrite E.
  - intros Hnone. rewrite extend_unfold.
    destruct (ToBoolean opts); [| eauto].
    apply extend_keys_completes; [exact Hb |].
    intros key Hin Hown. apply Hnone. now apply for_in_has_own.
  - now rewrite extend_unfold.
Qed.

End Options.

(** ** The document under construction *)

Section DomFacts.

Implicit Types (b : Browser) (f : Node -> Node) (i j : nat).

Lemma nodes_set_nodes (l : list Node) b : nodes (set_nodes l b) = l.
Proof. reflexivity. Qed.

Lemma nodes_alter_node f i b : nodes (alter_node f i b) = alter f i (nodes b).
Proof. reflexivity. Qed.

Lemma length_nodes_alter f i b :
  length (nodes (alter_node f i b)) = length (nodes b).
Proof. rewrite nodes_alter_node. apply length_alter. Qed.

Lemma length_nodes_snoc (n : Node) b :
  length (nodes (set_nodes (nodes b ++ [n]) b)) = S (length (nodes b)).
Proof. rewrite nodes_set_nodes, length_app. cbn. lia. Qed.

Lemma node_alter_ne f i j b : i <> j -> node (alter_node f i b) j = node b j.
Proof.
  intros Hne. unfold node. rewrite nodes_alter_node.
  now rewrite list_lookup_alter_ne.
Qed.

Lemma node_alter_eq f i b :
  (i < length (nodes b))%nat -> node (alter_node f i b) i = f (node b i).
Proof.
  intros Hlt. unfold node. rewrite nodes_alter_node, list_lookup_alter_eq.
  destruct (lookup_lt_is_Some_2 (nodes b) i Hlt) as [n ->]. reflexivity.
Qed.

Lemma node_snoc_lt (n : Node) j b :
  (j < length (nodes b))%nat -> node (set_nodes (nodes b ++ [n]) b) j = node b j.
Proof.
  intros Hlt. unfold node. rewrite nodes_set_nodes.
  now rewrite lookup_app_l.
Qed.

Lemma layout_alter_node f i b : layout (alter_node f i b) = layout b.
Proof. reflexivity. Qed.

End DomFacts.

#[local] Arguments node : simpl never.
#[local] Arguments alter_node : simpl never.
#[local] Arguments set_nodes : simpl never.

Section Construction.

Implicit Types (b : Browser) (s : St) (w : World) (i j : nat).

Lemma attached_in_store b i (p : Ref) :
  parentNode (node b i) = Some p -> (i < length (nodes b))%nat.
Proof.
  unfold node. intros H. apply lookup_lt_is_Some.
  destruct (nodes b !! i); [eauto | discriminate].
Qed.

(** A change that keeps the parent of every node keeps every parent
    pointer of the store. *)
Lemma parent_alter_keep (f : Node -> Node) i j b :
  (forall n, parentNode (f n) = parentNode n) ->
  parentNode (node (alter_node f i b) j) = parentNode (node b j).
Proof.
  intros Hf. destruct (decide (i = j)) as [-> | Hne].
  - unfold node. rewrite nodes_alter_node, list_lookup_alter_eq.
    destruct (nodes b !! j); cbn; [apply Hf | reflexivity].
  - now rewrite node_alter_ne.
Qed.

Lemma parent_with_style (k v : string) i j b :
  parentNode (node (alter_node (with_style k v) i b) j) = parentNode (node b j).
Proof. now apply parent_alter_keep. Qed.

Lemma parent_with_attribute (k v : string) i j b :
  parentNode (node (alter_node (with_attribute k v) i b) j) = parentNode (node b j).
Proof. now apply parent_alter_keep. Qed.

Lemma parent_with_listener (l : Listener) i j b :
  parentNode (node (alter_node (with_listener l) i b) j) = parentNode (node b j).
Proof. now apply parent_alter_keep. Qed.

Lemma parent_with_parent_eq (q : option Ref) i b :
  (i < length (nodes b))%nat ->
  parentNode (node (alter_node (with_parent q) i b) i) = q.
Proof. intros Hlt. now rewrite node_alter_eq. Qed.

(** A created element has no parent, as a reference outside the store has
    none: creation changes no parent pointer. *)
Lemma parent_created (ns tag : string) j b :
  parentNode (node (set_nodes (nodes b ++ [detached ns tag]) b) j) =
  parentNode (node b j).
Proof.
  destruct (decide (j < length (nodes b))%nat) as [Hlt | Hge].
  - now rewrite node_snoc_lt.
  - unfold node. rewrite nodes_set_nodes.
    rewrite (lookup_ge_None_2 (nodes b)) by lia.
    destruct (decide (j = length (nodes b))) as [-> | Hne].
    + now rewrite list_lookup_middle.
    + rewrite lookup_ge_None_2; [reflexivity |]. rewrite length_app. cbn. lia.
Qed.

Lemma node_logged (l : list Node) (dl : list Listener) (lay : Layout)
    (c : list (list string)) j b :
  nodes b = l ->
  node {| nodes := l; document_listeners := dl; layout := lay; console := c |} j =
  node b j.
Proof. intros <-. reflexivity. Qed.

End Construction.

Ltac dom_lia :=
  repeat first [rewrite length_nodes_alter | rewrite length_nodes_snoc]; lia.

Ltac dom_simpl :=
  repeat first
    [ rewrite length_nodes_alter
    | rewrite length_nodes_snoc
    | rewrite parent_with_style
    | rewrite parent_with_attribute
    | rewrite parent_with_listener
    | rewrite parent_created
    | rewrite parent_with_parent_eq by dom_lia
    | rewrite node_alter_ne by dom_lia
    | rewrite node_snoc_lt by dom_lia
    | rewrite decide_True by reflexivity ].

Ltac dom_unfold :=
  unfold initialize, injectWrapper, injectSvg;
  unfold createElement, createElementNS, setStyle, setAttribute,
    getParentNode, insertBefore, removeChild, appendChild, addEventListener,
    console_log;
  js_run.

Section Initialize.

Implicit Types (b : Browser) (s : St) (w : World).

(** On an element that has a parent, [initialize] completes: it sets
    [this.svg], changes nothing else of the widget, and leaves the parent
    of every other node of the store as it was. *)
Lemma initialize_attached s (p : nat) :
  parentNode (node (dom s) (element (this s))) = Some p ->
  exists s' sv,
    initialize s = (Ok tt, s') /\
    this s' = with_svg (Some sv) (this s) /\
    (length (nodes (dom s)) <= length (nodes (dom s')))%nat /\
    (forall j, (j < length (nodes (dom s)))%nat -> j <> element (this s) ->
       parentNode (node (dom s') j) = parentNode (node (dom s) j)).
Proof.
  intros Hp. pose proof (attached_in_store _ _ _ Hp) as Hlt.
  destruct s as [[o e ns sv pg d cs] b]. cbn in Hp, Hlt.
  dom_unfold.
  destruct (ToBoolean _); cbn.
  - repeat (progress (dom_simpl; try rewrite Hp; cbn)).
    eexists _, _. split; [reflexivity |]. split; [reflexivity |]. cbn.
    split.
    + dom_simpl. lia.
    + intros j Hj Hne. erewrite node_logged by reflexivity.
      dom_simpl. reflexivity.
  - repeat (progress (dom_simpl; try rewrite Hp; cbn)).
    eexists _, _. split; [reflexivity |]. split; [reflexivity |]. cbn.
    split.
    + dom_simpl. lia.
    + intros j Hj Hne. erewrite node_logged by reflexivity.
      dom_simpl. reflexivity.
Qed.

(** On an element without a parent, [initialize] throws a TypeError
    before any listener is bound. *)
Lemma initialize_detached s :
  parentNode (node (dom s) (element (this s))) = None ->
  exists s' msg, initialize s = (Throw (TypeError msg), s').
Proof.
  intros Hp.
  destruct s as [[o e ns sv pg d cs] b]. cbn in Hp.
  dom_unfold.
  destruct (ToBoolean _); cbn;
    repeat (progress (dom_simpl; try rewrite Hp; cbn)); eauto.
Qed.

Lemma has_documentElement_intro b (i : nat) :
  parentNode (node b i) = Some Document -> has_documentElement b = true.
Proof.
  unfold node, has_documentElement. intros H.
  destruct (nodes b !! i) as [n|] eqn:E; [| discriminate].
  apply existsb_exists. exists n. split.
  - apply list_elem_of_In. eapply list_elem_of_lookup_2, E.
  - apply bool_decide_eq_true. exact H.
Qed.

(** On the document element, whose parent is the document, [initialize]
    throws a HierarchyRequestError before [this.svg] is set or any
    listener is bound: the document does not take the wrapper, nor the
    overlay, as a second element.  The elements the document had are as
    they were. *)
Lemma initialize_at_document s :
  parentNode (node (dom s) (element (this s))) = Some Document ->
  exists s',
    initialize s = (Throw (DOMException "HierarchyRequestError"), s') /\
    this s' = this s /\
    (length (nodes (dom s)) <= length (nodes (dom s')))%nat /\
    (forall j, (j < length (nodes (dom s)))%nat -> node (dom s') j = node (dom s) j).
Proof.
  intros Hp. pose proof (attached_in_store _ _ _ Hp) as Hlt.
  destruct s as [[o e ns sv pg d cs] b]. cbn in Hp, Hlt |- *.
  dom_unfold.
  destruct (ToBoolean _); cbn.
  - repeat (progress (dom_simpl; try rewrite Hp; cbn)).
    eexists. split; [reflexivity |]. cbn. split; [reflexivity |]. split.
    + dom_simpl. lia.
    + intros j Hj. dom_simpl. reflexivity.
  - repeat (progress (dom_simpl; try rewrite Hp; cbn)).
    erewrite (has_documentElement_intro _ e) by (dom_simpl; exact Hp). cbn.
    eexists. split; [reflexivity |]. cbn. split; [reflexivity |]. split.
    + dom_simpl. lia.
    + intros j Hj. dom_simpl. reflexivity.
Qed.

(** The three cases of [initialize], by the parent of the element. *)
Lemma initialize_completes s s' :
  initialize s = (Ok tt, s') ->
  exists (p : nat) sv,
    parentNode (node (dom s) (element (this s))) = Some p /\
    this s' = with_svg (Some sv) (this s).
Proof.
  destruct (parentNode (node (dom s) (element (this s)))) as [[|p]|] eqn:Hp.
  - destruct (initialize_at_document s Hp) as (s1 & -> & _). discriminate.
  - destruct (initialize_attached s p Hp) as (s1 & sv & -> & Hthis & _).
    intros [= <-]. eauto.
  - destruct (initialize_detached s Hp) as (s1 & msg & ->). discriminate.
Qed.

(** A widget whose constructor completes starts with an overlay and an
    empty, inactive session. *)
Lemma drawMaps_completes el (opts : value) w w' :
  drawMaps el opts w = (Ok tt, w') ->
  exists wd,
    instances w' = (instances w ++ [wd])%list /\
    element wd = el /\ is_Some (svg wd) /\
    polygon wd = None /\ coords wd = [] /\ isDrawing wd = false.
Proof.
  unfold drawMaps. destruct (extend ∅ [defaults; opts]) as [o|]; [| discriminate].
  set (s := {| this := _; dom := browser w |}).
  destruct (initialize s) as [[[]|e] s'] eqn:E; [| discriminate].
  destruct (initialize_completes s s' E) as (p & sv & _ & Hthis).
  intros [= <-]. exists (this s'). rewrite Hthis. cbn. eauto 10.
Qed.

(** Every widget the constructor returns keeps its overlay through all
    the events it handles: [resetMaps] and [injectPolygon] always find
    [this.svg]. *)
Lemma constructed_widget_keeps_overlay el (opts : value) w w' :
  drawMaps el opts w = (Ok tt, w') ->
  exists wd,
    last (instances w') = Some wd /\
    forall b s', rtc handles {| this := wd; dom := b |} s' -> is_Some (svg (this s')).
Proof.
  intros H. destruct (drawMaps_completes _ _ _ _ H) as (wd & Hi & _ & Hsvg & _).
  exists wd. split; [rewrite Hi; apply last_snoc |].
  intros b s' Hr. apply handled_keeps_construction in Hr as (-> & _). exact Hsvg.
Qed.

End Initialize.

(** ** The exposed function *)

Section ExposedFunction.

Variable querySelectorAll : Browser -> string -> list nat.

Implicit Types (w : World) (opts : value) (els : list nat).

Lemma drawMaps_attached el opts w (o : gmap string value) (p : nat) :
  extend ∅ [defaults; opts] = Ok o ->
  parentNode (node (browser w) el) = Some p ->
  exists w' wd,
    drawMaps el opts w = (Ok tt, w') /\
    instances w' = (instances w ++ [wd])%list /\
    element wd = el /\
    (length (nodes (browser w)) <= length (nodes (browser w')))%nat /\
    (forall j, (j < length (nodes (browser w)))%nat -> j <> el ->
       parentNode (node (browser w') j) = parentNode (node (browser w) j)).
Proof.
  intros Ho Hp. unfold drawMaps. rewrite Ho.
  set (s := {| this := _; dom := browser w |}).
  destruct (initialize_attached s p Hp) as (s' & sv & -> & Hthis & Hlen & Hframe).
  eexists _, (this s'). repeat split; cbn; auto.
  now rewrite Hthis.
Qed.

Lemma drawMaps_detached el opts w (o : gmap string value) :
  extend ∅ [defaults; opts] = Ok o ->
  parentNode (node (browser w) el) = None ->
  exists w' msg,
    drawMaps el opts w = (Throw (TypeError msg), w') /\
    instances w' = instances w.
Proof.
  intros Ho Hp. unfold drawMaps. rewrite Ho.
  set (s := {| this := _; dom := browser w |}).
  destruct (initialize_detached s Hp) as (s' & msg & ->).
  eexists _, msg. split; reflexivity.
Qed.

Lemma drawMaps_at_document el opts w (o : gmap string value) :
  extend ∅ [defaults; opts] = Ok o ->
  parentNode (node (browser w) el) = Some Document ->
  exists w',
    drawMaps el opts w = (Throw (DOMException "HierarchyRequestError"), w') /\
    instances w' = instances w.
Proof.
  intros Ho Hp. unfold drawMaps. rewrite Ho.
  set (s := {| this := _; dom := browser w |}).
  destruct (initialize_at_document s Hp) as (s' & -> & _).
  eexists. split; reflexivity.
Qed.

(** Once the options merge, the constructor fails on an element of the
    document exactly when the element is the document element. *)
Lemma drawMaps_fails_on_documentElement el opts w (o : gmap string value) :
  extend ∅ [defaults; opts] = Ok o ->
  is_Some (parentNode (node (browser w) el)) ->
  completion (drawMaps el opts) w <> Ok tt ->
  parentNode (node (browser w) el) = Some Document.
Proof.
  intros Ho [[|p] Hp] Hfail; [exact Hp |].
  exfalso. apply Hfail.
  destruct (drawMaps_attached el opts w o p Ho Hp) as (w' & wd & E & _).
  unfold completion. now rewrite E.
Qed.

(** The loop from index [n - 1] down, when the element at index [k < n]
    is the document element and the ones after it have an element as
    their parent: the widgets of the elements at indices
    [n - 1, ..., k + 1] are constructed, in that order, and the
    HierarchyRequestError of index [k] ends the loop. *)
Lemma loop_stops_at_failure els opts (o : gmap string value) (k bad : nat) :
  extend ∅ [defaults; opts] = Ok o ->
  NoDup els ->
  els !! k = Some bad ->
  forall n w,
    (k < n <= length els)%nat ->
    parentNode (node (browser w) bad) = Some Document ->
    (forall j e, (k < j < n)%nat -> els !! j = Some e ->
       has_parent_element (browser w) e) ->
    exists w',
      loop els opts n w = (Throw (DOMException "HierarchyRequestError"), w') /\
      element <$> instances w' =
      ((element <$> instances w) ++ reverse (take (n - S k) (drop (S k) els)))%list.
Proof.
  intros Ho Hnd Hk n.
  induction n as [|i IH]; intros w Hn Hdoc Hrest; [lia |].
  cbn [loop]. unfold mbind, M_bind, bind.
  destruct (decide (i = k)) as [-> | Hik].
  - rewrite Hk.
    destruct (drawMaps_at_document bad opts w o Ho Hdoc) as (w' & -> & Hi).
    exists w'. split; [reflexivity |].
    rewrite Hi. replace (S k - S k)%nat with 0%nat by lia.
    cbn. now rewrite app_nil_r.
  - assert (Hlt : (i < length els)%nat) by lia.
    destruct (lookup_lt_is_Some_2 els i Hlt) as [e He]. rewrite He.
    destruct (Hrest i e ltac:(lia) He) as [p Hp].
    destruct (drawMaps_attached e opts w o p Ho Hp)
      as (w1 & wd & -> & Hi & Hel & Hlen & Hframe).
    assert (Hne : forall j e', j <> i -> els !! j = Some e' -> e' <> e).
    { intros j e' Hj He' ->. apply Hj. eapply NoDup_lookup; eauto. }
    destruct (IH w1) as (w' & -> & Hinst).
    + lia.
    + rewrite Hframe; [exact Hdoc | eapply attached_in_store; eauto |].
      eapply Hne; [| exact Hk]. lia.
    + intros j e' Hj He'.
      destruct (Hrest j e' ltac:(lia) He') as [p' Hp'].
      exists p'. rewrite Hframe; [eauto | eapply attached_in_store; eauto |].
      eapply Hne; [| exact He']. lia.
    + exists w'. split; [reflexivity |].
      rewrite Hinst, Hi, fmap_app. cbn [fmap list_fmap]. rewrite Hel.
      rewrite <- app_assoc. f_equal.
      replace (S i - S k)%nat with (S (i - S k)) by lia.
      assert (Hd : drop (S k) els !! (i - S k)%nat = Some e).
      { rewrite lookup_drop. rewrite <- He. f_equal. lia. }
      rewrite (take_S_r _ _ _ Hd), reverse_app. reflexivity.
Qed.

Lemma initialised_for_elements w el :
  initialised_for w el <-> el ∈ element <$> instances w.
Proof.
  unfold initialised_for. rewrite list_elem_of_fmap.
  split; intros (wd & H1 & H2); exists wd; auto.
Qed.


End ExposedFunction.

(** ** Worked examples on the sample page *)

Section Examples.

Import Sample.

(** The sample session is the widget the constructor builds for node 1. *)
Lemma sample_session_constructed :
  drawMaps 1 VUndefined world =
  (Ok tt, {| browser := dom session; instances := [this session] |}).
Proof. vm_compute. reflexivity. Qed.

Lemma click_performs_one_action_by_priority_witness :
  onClick all_modifiers_click drawing = (ensurePolygon;; regretPoint) drawing /\
  onClick finalize_and_clear_click drawing = (ensurePolygon;; closeMap) drawing /\
  onClick clear_click drawing = (ensurePolygon;; resetMaps) drawing /\
  onClick plain_click_1 drawing = (ensurePolygon;; addMappedVertex plain_click_1) drawing /\
  (length (coords (this (exec (onClick all_modifiers_click) drawing))) <=
   length (coords (this drawing)))%nat /\
  completion (onClick all_modifiers_click) drawing = Ok tt /\
  coords (this (exec (onClick all_modifiers_click) drawing)) =
    removelast (coords (this drawing)) /\
  coords (this (exec (onClick finalize_and_clear_click) drawing)) = [] /\
  exists pos,
    completion (getMousePosition plain_click_1) drawing = Ok pos /\
    coords (this (exec (onClick plain_click_1) drawing)) =
      (coords (this drawing) ++ [(x pos, y pos)])%list /\
    isDrawing (this (exec (onClick plain_click_1) drawing)) = true.
Proof.
  pose proof (click_performs_one_action_by_priority drawing all_modifiers_click)
    as (H1 & _ & _ & _ & H5 & H6).
  pose proof (click_performs_one_action_by_priority drawing finalize_and_clear_click)
    as (_ & H2 & _ & _ & _ & H7).
  pose proof (click_performs_one_action_by_priority drawing clear_click)
    as (_ & _ & H3 & _).
  pose proof (click_performs_one_action_by_priority drawing plain_click_1)
    as (_ & _ & _ & H4 & _ & H8).
  destruct (H6 5%nat) as (Hok & Hundo & _); [vm_compute; reflexivity |].
  destruct (H7 5%nat) as (_ & _ & Hfin & _); [vm_compute; reflexivity |].
  destruct (H8 5%nat) as (_ & _ & _ & _ & Hadd); [vm_compute; reflexivity |].
  split; [apply H1; vm_compute; reflexivity |].
  split; [apply H2; vm_compute; reflexivity |].
  split; [apply H3; vm_compute; reflexivity |].
  split; [apply H4; vm_compute; reflexivity |].
  split; [apply H5; vm_compute; reflexivity |].
  split; [exact Hok |].
  split; [apply Hundo; vm_compute; reflexivity |].
  split; [apply Hfin; vm_compute; reflexivity |].
  apply Hadd; vm_compute; reflexivity.
Defined.

Lemma coordinate_mapper_formula_witness :
  exists q z,
    F64.exact (110 - (10 + 0 - 0))%float = Some q /\
    F64.x (F64.getMousePosition {| F64.pageX := 110; F64.pageY := 60 |} F64.at_10_10) =
      Some z /\
    nearest_integer q z /\ z = 100.
Proof.
  pose proof (coordinate_mapper_formula
                {| F64.pageX := 110; F64.pageY := 60 |} F64.at_10_10)
    as (_ & _ & Hx & _).
  destruct (F64.exact (110 - (10 + 0 - 0))%float) as [q|] eqn:E;
    [| vm_compute in E; discriminate].
  destruct (Hx q E) as (z & Hz & Hn).
  exists q, z. split; [reflexivity |]. split; [exact Hz |]. split; [exact Hn |].
  assert (H : F64.x (F64.getMousePosition {| F64.pageX := 110; F64.pageY := 60 |}
                       F64.at_10_10) = Some 100) by (vm_compute; reflexivity).
  congruence.
Defined.

(** In double precision the mapper does not always return the integer
    nearest to the difference of the numbers it is given: with the page
    scrolled by six tenths of a pixel the sum [0.5 + 0.6] is rounded, and
    a pointer at six tenths of a pixel is mapped to [-1]; at [1e21] the
    offset [10] is lost.  From NaN it returns no integer. *)
Lemma double_precision_examples :
  F64.getMousePosition {| F64.pageX := 0x1.3333333333333p-1;
                          F64.pageY := 0x1.3333333333333p-1 |}
    F64.scrolled_by_a_fraction = {| F64.x := Some (-1); F64.y := Some (-1) |} /\
  F64.getMousePosition {| F64.pageX := 1e21; F64.pageY := 60 |} F64.at_10_10 =
    {| F64.x := Some (10 ^ 21); F64.y := Some 50 |} /\
  F64.getMousePosition {| F64.pageX := nan; F64.pageY := 60 |} F64.at_10_10 =
    {| F64.x := None; F64.y := Some 50 |}.
Proof. vm_compute. auto. Qed.

Lemma finalize_and_clearAll_reset_session_witness :
  completion resetMaps drawing = Ok tt /\
  coords (this (exec resetMaps drawing)) = [] /\
  isDrawing (this (exec resetMaps drawing)) = false.
Proof.
  apply (proj2 (finalize_and_clearAll_reset_session drawing) 5%nat).
  vm_compute. reflexivity.
Defined.

Lemma undoVertex_empty_is_noop_witness : regretPoint session = (Ok tt, session).
Proof.
  apply (proj2 (proj2 (proj2 (undoVertex_empty_is_noop session)))).
  reflexivity.
Defined.

Lemma pointer_move_preserves_session_witness :
  onMove plain_click_2 drawing =
  (Ok tt,
   {| this := this drawing;
      dom := alter_node
               (with_attribute "points"
                  (points_attribute (coords (this drawing) ++ [(120, 70)])))
               6 (dom drawing) |}).
Proof.
  apply (proj2 (proj2 (proj2 (pointer_move_preserves_session drawing plain_click_2)))
           6%nat {| x := 120; y := 70 |}).
  - vm_compute. reflexivity.
  - vm_compute. discriminate.
  - vm_compute. reflexivity.
  - vm_compute. reflexivity.
Defined.

(** C5, as the specification words the scenario, fails: after the click
    with the undo modifier the vertex list is not [[(100, 50)]], and after
    the last click it is not [[(100, 50); (120, 70)]]. *)
Lemma click_undo_click_scenario_counterexample :
  let s1 := exec (onClick plain_click_1) session in
  let s2 := exec (onClick undo_click) s1 in
  let s3 := exec (onClick plain_click_2) s2 in
  (spec_offsetLeft (layout (dom session)) (element (this session)) == 10)%Q /\
  (spec_offsetTop (layout (dom session)) (element (this session)) == 10)%Q /\
  pageXOffset (layout (dom session)) = 0%Q /\
  pageYOffset (layout (dom session)) = 0%Q /\
  coords (this s1) = [(100, 50)] /\
  coords (this s2) <> [(100, 50)] /\
  coords (this s3) <> [(100, 50); (120, 70)].
Proof.
  vm_compute. repeat split; discriminate.
Qed.

Lemma click_undo_click_scenario_witness :
  let s1 := exec (onClick plain_click_1) session in
  let s2 := exec (onClick undo_click) s1 in
  let s3 := exec (onClick plain_click_2) s2 in
  coords (this s1) = [(100, 50)] /\
  coords (this s2) = [] /\
  coords (this s3) = [(120, 70)].
Proof.
  apply (click_undo_click_scenario session 5%nat);
    vm_compute; reflexivity.
Defined.


(** C10, as the specification words it, fails: [{hasOwnProperty: null}]
    has an own property whose value has [typeof] ["object"], and merging
    it throws the TypeError of calling [null], not a ReferenceError; the
    constructor ends with that TypeError, the document untouched. *)
Lemma object_valued_option_counterexample :
  has_object_valued_property shadowing_options /\
  extend ∅ [defaults; shadowing_options] =
    Throw (TypeError "obj.hasOwnProperty is not a function") /\
  extend ∅ [defaults; shadowing_options] <> Throw (ReferenceError "deepExtend") /\
  forall el w,
    drawMaps el shadowing_options w =
    (Throw (TypeError "obj.hasOwnProperty is not a function"), w).
Proof.
  split; [exists "hasOwnProperty"; split; [apply list_elem_of_here | reflexivity] |].
  split; [vm_compute; reflexivity |].
  split; [vm_compute; discriminate |].
  intros el w. reflexivity.
Qed.

Lemma object_valued_option_throws_ReferenceError_witness :
  extend ∅ [defaults; nested_options] = Throw (ReferenceError "deepExtend") /\
  (forall el w, drawMaps el nested_options w = (Throw (ReferenceError "deepExtend"), w)) /\
  exists o, extend ∅ [defaults; flat_options] = Ok o.
Proof.
  pose proof (object_valued_option_throws_ReferenceError nested_options eq_refl eq_refl)
    as (H1 & _ & _).
  pose proof (object_valued_option_throws_ReferenceError flat_options eq_refl eq_refl)
    as (_ & H2 & _).
  assert (Hobj : has_object_valued_property nested_options).
  { exists "style". split; [| reflexivity].
    apply list_elem_of_further, list_elem_of_here. }
  split; [apply H1, Hobj | split; [apply H1, Hobj |]].
  apply H2. intros key Hkey. cbn in Hkey.
  apply list_elem_of_singleton in Hkey as ->. discriminate.
Defined.

(** What the other ways of shadowing [hasOwnProperty] do to the merge: a
    number in its place and a prototype chain without [Object.prototype]
    end it with a TypeError; a function in its place decides what is
    merged. *)
Lemma shadowed_hasOwnProperty_examples :
  extend ∅ [defaults; shadowing_flat_options] =
    Throw (TypeError "obj.hasOwnProperty is not a function") /\
  extend ∅ [defaults; bare_options] =
    Throw (TypeError "obj.hasOwnProperty is not a function") /\
  extend ∅ [defaults; disowning_options] = Ok default_options.
Proof. vm_compute. auto. Qed.

End Examples.

(** * Further properties of the code *)

(** ** Option merging: what reaches [this.options] *)

Section MergedOptions.

Implicit Types (obj opts : value) (out o : gmap string value) (keys : list string).

Lemma assign_lookup (key k : string) (v : value) out :
  assign key v out !! k =
  if String.eqb k key && negb (String.eqb k "__proto__") then Some v else out !! k.
Proof.
  unfold assign.
  destruct (String.eqb_spec k key) as [-> | Hne]; cbn [andb].
  - destruct (String.eqb key "__proto__"); cbn [negb]; [reflexivity |].
    apply lookup_insert_eq.
  - destruct (String.eqb key "__proto__"); [reflexivity |].
    now rewrite lookup_insert_ne.
Qed.

Lemma extend_key_lookup obj out key o (k : string) :
  hasOwnProperty_of obj = Builtin ->
  extend_key obj out key = Ok o ->
  o !! k = if has_own obj k && String.eqb k key && negb (String.eqb k "__proto__")
           then Some (get obj k) else out !! k.
Proof.
  intros Hb. unfold extend_key. rewrite (builtin_hasOwnProperty _ _ Hb).
  destruct (String.eqb_spec k key) as [-> | Hne].
  - destruct (has_own obj key); cbn [andb].
    + destruct (String.eqb _ "object"); [discriminate |].
      intros [= <-]. rewrite assign_lookup, String.eqb_refl. reflexivity.
    + now intros [= <-].
  - rewrite andb_false_r. cbn [andb].
    destruct (has_own obj key).
    + destruct (String.eqb _ "object"); [discriminate |].
      intros [= <-]. rewrite assign_lookup.
      now rewrite (proj2 (String.eqb_neq k key) Hne).
    + now intros [= <-].
Qed.

Lemma extend_keys_lookup obj keys : forall out o (k : string),
  hasOwnProperty_of obj = Builtin ->
  extend_keys obj out keys = Ok o ->
  o !! k = if has_own obj k && bool_decide (k ∈ keys) && negb (String.eqb k "__proto__")
           then Some (get obj k) else out !! k.
Proof.
  induction keys as [|key keys IH]; intros out o k Hb; cbn.
  - intros [= <-]. now rewrite andb_false_r.
  - destruct (extend_key obj out key) as [out'|] eqn:E; [| discriminate].
    intros H. rewrite (IH _ _ k Hb H), (extend_key_lookup _ _ _ _ k Hb E).
    destruct (has_own obj k); cbn [andb]; [| reflexivity].
    destruct (negb (String.eqb k "__proto__")); rewrite ?andb_false_r; [| reflexivity].
    rewrite !andb_true_r.
    destruct (String.eqb_spec k key) as [-> | Hne].
    + rewrite (bool_decide_eq_true_2 (key ∈ key :: keys)) by apply list_elem_of_here.
      now destruct (bool_decide (key ∈ keys)).
    + destruct (bool_decide_reflect (k ∈ keys)) as [Hin | Hnin].
      * now rewrite bool_decide_eq_true_2 by now apply list_elem_of_further.
      * rewrite bool_decide_eq_false_2; [reflexivity |].
        intros Hc. apply elem_of_cons in Hc as [? | ?]; congruence.
Qed.

Lemma falsy_has_no_own_property opts : ToBoolean opts = false -> own_props opts = [].
Proof.
  destruct opts; cbn; try reflexivity; try discriminate.
  destruct s; [reflexivity | discriminate].
Qed.

(** What the merge leaves under each name, for options that [extend]
    reads with the built-in [hasOwnProperty]. *)
Lemma extend_lookup opts o (k : string) :
  builtin_test opts ->
  extend ∅ [defaults; opts] = Ok o ->
  o !! k = if enumerable_own opts k && negb (String.eqb k "__proto__")
           then Some (get opts k) else default_options !! k.
Proof.
  intros Hplain. rewrite extend_unfold. unfold enumerable_own.
  destruct (ToBoolean opts) eqn:Ht.
  - destruct Hplain as [? | Hb]; [congruence |].
    intros H. rewrite (extend_keys_lookup _ _ _ _ k Hb H).
    destruct (bool_decide_reflect (k ∈ (own_props opts).*1)) as [Hin | Hnin].
    + rewrite has_own_enumerable by assumption.
      now rewrite bool_decide_eq_true_2 by now apply for_in_own.
    + destruct (has_own opts k) eqn:Ho; [| reflexivity].
      rewrite bool_decide_eq_false_2; [reflexivity |].
      intros Hin. apply Hnin. now apply for_in_has_own.
  - intros [= <-]. rewrite (falsy_has_no_own_property _ Ht). reflexivity.
Qed.

(** X1.  For options that [extend] reads with the built-in
    [hasOwnProperty]: when the merge completes, every own enumerable
    property of the argument, except one named ["__proto__"], overrides
    the default of the same name or adds a new option; every other option
    keeps its default; properties the argument inherits, and a property
    named ["__proto__"], never reach the widget. *)
Theorem merged_options_lookup opts o :
  plain_options opts ->
  extend ∅ [defaults; opts] = Ok o ->
  o !! "__proto__" = None /\
  forall k : string,
    (enumerable_own opts k = true -> k <> "__proto__" -> o !! k = Some (get opts k)) /\
    (enumerable_own opts k = false -> o !! k = default_options !! k) /\
    (o !! k = None ->
     default_options !! k = None /\ (enumerable_own opts k = false \/ k = "__proto__")).
Proof.
  intros [Hplain _] Ho. split.
  - rewrite (extend_lookup opts o _ Hplain Ho). cbn [String.eqb negb].
    now rewrite andb_false_r.
  - intros k. rewrite (extend_lookup opts o k Hplain Ho).
    destruct (enumerable_own opts k); cbn [andb].
    + destruct (String.eqb_spec k "__proto__") as [-> | Hne]; cbn [negb].
      * split; [congruence |]. split; [discriminate | auto].
      * split; [reflexivity |]. split; discriminate.
    + split; [discriminate |]. split; auto.
Qed.

(** X21.  Options that hide the built-in [hasOwnProperty] break the
    construction.  When the options argument is an object on which
    [hasOwnProperty] is something that is not a function (an own or
    inherited property of that name holding a number, a string, [null],
    an object ...), or nothing at all (a prototype chain that ends in
    [null] without [Object.prototype]), and [for ... in] visits at least
    one key of it, then merging the options throws a TypeError at the
    first key, before [deepExtend] is ever reached; the constructor ends
    with that TypeError and leaves the document untouched. *)
Theorem shadowed_hasOwnProperty_breaks_merge opts :
  ToBoolean opts = true ->
  hasOwnProperty_of opts = Missing \/
    (exists v, hasOwnProperty_of opts = Shadowed v /\ typeof v <> "function") ->
  for_in_keys opts <> [] ->
  extend ∅ [defaults; opts] =
    Throw (TypeError "obj.hasOwnProperty is not a function") /\
  forall el w,
    drawMaps el opts w =
    (Throw (TypeError "obj.hasOwnProperty is not a function"), w).
Proof.
  intros Ht Hm Hkeys.
  assert (Hcall : forall key,
             hasOwnProperty opts key =
             Throw (TypeError "obj.hasOwnProperty is not a function")).
  { intros key. unfold hasOwnProperty.
    destruct Hm as [-> | (v & -> & Hv)]; [reflexivity |].
    destruct v; try reflexivity. now contradict Hv. }
  assert (E : extend ∅ [defaults; opts] =
              Throw (TypeError "obj.hasOwnProperty is not a function")).
  { rewrite extend_unfold, Ht.
    destruct (for_in_keys opts) as [|key keys]; [congruence |].
    cbn [extend_keys]. unfold extend_key. now rewrite Hcall. }
  split; [exact E |].
  intros el w. unfold drawMaps. now rewrite E.
Qed.

Lemma extend_keys_skips obj out keys :
  hasOwnProperty_of obj = Builtin ->
  (forall k, k ∈ keys -> has_own obj k = false) ->
  extend_keys obj out keys = Ok out.
Proof.
  intros Hb Hno. induction keys as [|key keys IH]; [reflexivity |].
  cbn. unfold extend_key. rewrite (builtin_hasOwnProperty _ _ Hb).
  rewrite Hno by apply list_elem_of_here.
  apply IH. intros k Hk. apply Hno. now apply list_elem_of_further.
Qed.

(** X2.  An options argument that [extend] skips ([undefined], [null],
    [false], [0], the empty string), or that has no own enumerable
    property and the built-in [hasOwnProperty] ([true], a number, a
    function, [{}], [[]], an object that only inherits its properties,
    object-valued ones included), is the same as no argument: the
    constructor does exactly what it does without options. *)
Theorem propertyless_options_are_no_options opts :
  builtin_test opts ->
  own_props opts = [] ->
  extend ∅ [defaults; opts] = Ok default_options /\
  forall el w, drawMaps el opts w = drawMaps el VUndefined w.
Proof.
  intros Hplain Hown.
  assert (E : extend ∅ [defaults; opts] = Ok default_options).
  { rewrite extend_unfold. destruct (ToBoolean opts) eqn:Ht; [| reflexivity].
    destruct Hplain as [? | Hb]; [congruence |].
    apply extend_keys_skips; [exact Hb |].
    intros k Hk. destruct (has_own opts k) eqn:Ho; [| reflexivity].
    apply for_in_has_own in Hk; [| exact Ho]. rewrite Hown in Hk. inversion Hk. }
  split; [exact E |].
  intros el w. unfold drawMaps. rewrite E.
  now rewrite (extend_unfold VUndefined).
Qed.

End MergedOptions.

(** ** The mapper on whole pixels *)

Section WholePixels.

Implicit Types (s : St) (event : Event) (l : Layout).

Lemma Qfloor_add_Z (q : Q) (z : Z) : Qfloor (q + inject_Z z) = Qfloor q + z.
Proof.
  destruct q as [n d]. unfold Qfloor, Qplus, inject_Z. cbn [Qnum Qden].
  rewrite Pos.mul_1_r, Z.mul_1_r. apply Z.div_add. discriminate.
Qed.

Lemma Math_round_add_Z (q : Q) (z : Z) :
  Math_round (q + inject_Z z) = Math_round q + z.
Proof.
  unfold Math_round. rewrite <- Qfloor_add_Z. apply Qfloor_comp. ring.
Qed.

Lemma Math_round_Z (z : Z) : Math_round (inject_Z z) = z.
Proof.
  rewrite (Math_round_comp (inject_Z z) (0 + inject_Z z)) by ring.
  rewrite Math_round_add_Z. reflexivity.
Qed.

Lemma Math_round_whole (p a b c : Q) :
  (p == inject_Z (Qfloor p))%Q -> (a == inject_Z (Qfloor a))%Q ->
  (b == inject_Z (Qfloor b))%Q -> (c == inject_Z (Qfloor c))%Q ->
  Math_round (p - (a + b - c)) = Qfloor p - (Qfloor a + Qfloor b - Qfloor c).
Proof.
  generalize (Qfloor p) (Qfloor a) (Qfloor b) (Qfloor c).
  intros zp za zb zc Hp Ha Hb Hc.
  rewrite (Math_round_comp _ (inject_Z (zp - (za + zb - zc)))).
  - apply Math_round_Z.
  - rewrite Hp, Ha, Hb, Hc. unfold Z.sub.
    repeat first [rewrite inject_Z_plus | rewrite inject_Z_opp]. ring.
Qed.

Lemma mapped_whole l el event :
  whole_pixels l el event -> mapped l el event = pixel_offset l el event.
Proof.
  intros ((Hx & _) & (Hy & _) & (Hrl & _) & (Hrt & _) & (Hsx & _) & (Hsy & _) &
          (Hcl & _) & (Hct & _)).
  unfold mapped, pixel_offset, spec_offsetLeft, spec_offsetTop.
  now rewrite !Math_round_whole.
Qed.

(** X4.  When the page position of the pointer, the bounding rectangle
    of the element, the scroll offsets and the border of the document
    element are whole numbers of pixels (of magnitude at most [2 ^ 50]),
    the mapped vertex is exactly the page position less the document
    offset of the element, with no rounding; it is negative when the
    pointer is left of or above the element, since nothing clamps it. *)
Theorem mapper_exact_on_whole_pixels s event :
  whole_pixels (layout (dom s)) (element (this s)) event ->
  getMousePosition event s =
  (Ok {| x := fst (pixel_offset (layout (dom s)) (element (this s)) event);
         y := snd (pixel_offset (layout (dom s)) (element (this s)) event) |}, s).
Proof.
  intros Hw. rewrite getMousePosition_eq.
  pose proof (mapped_whole _ _ _ Hw) as E. unfold mapped in E.
  rewrite <- E. reflexivity.
Qed.

End WholePixels.

(** ** Sequences of clicks *)

Section ClickSequences.

Implicit Types (s : St) (event : Event) (events : list Event).

Lemma held_same_options (w w' : Widget) event (name : string) :
  options w' = options w -> held event w' name = held event w name.
Proof. intros H. unfold held, option_of. now rewrite H. Qed.

Lemma plain_clicks_run events : forall s sv,
  svg (this s) = Some sv ->
  Forall (plain (this s)) events ->
  completion (clicks events) s = Ok tt /\
  coords (this (exec (clicks events) s)) =
    (coords (this s) ++
     map (mapped (layout (dom s)) (element (this s))) events)%list /\
  same_setup s (exec (clicks events) s).
Proof.
  induction events as [|event events IH]; intros s sv Hsv Hall.
  - cbn. rewrite app_nil_r. unfold same_setup. auto 10.
  - apply Forall_cons in Hall as [Hp Hall].
    destruct (onClick_add_run s event sv Hsv Hp)
      as (s1 & E & Hsame & Hcs & _ & _).
    pose proof Hsame as (Ho & He & _ & Hs & Hl).
    destruct (IH s1 sv) as (Hok & Hcoords & Hsame').
    + congruence.
    + eapply Forall_impl; [exact Hall |].
      intros e (A & B & C). unfold plain.
      now rewrite !(held_same_options (this s) (this s1)).
    + unfold completion, exec in *. cbn [clicks]. js_run. rewrite E.
      split; [exact Hok |]. split.
      * rewrite Hcoords, Hcs, Hl, He, <- app_assoc. reflexivity.
      * eapply same_setup_trans; eauto.
Qed.

(** X5.  Plain clicks store their vertices in the order of the clicks:
    after any sequence of clicks without a modifier, at whole-pixel
    positions under a whole-pixel layout, the vertex list is the one
    before, followed by the position of each click relative to the
    element, none dropped, none merged, duplicates kept. *)
Theorem plain_clicks_store_vertices_in_order events s sv :
  svg (this s) = Some sv ->
  Forall (plain (this s)) events ->
  Forall (whole_pixels (layout (dom s)) (element (this s))) events ->
  completion (clicks events) s = Ok tt /\
  coords (this (exec (clicks events) s)) =
    (coords (this s) ++
     map (pixel_offset (layout (dom s)) (element (this s))) events)%list /\
  length (coords (this (exec (clicks events) s))) =
    (length (coords (this s)) + length events)%nat /\
  same_setup s (exec (clicks events) s).
Proof.
  intros Hsv Hplain Hwhole.
  destruct (plain_clicks_run events s sv Hsv Hplain) as (Hok & Hcs & Hsame).
  assert (E : map (mapped (layout (dom s)) (element (this s))) events =
              map (pixel_offset (layout (dom s)) (element (this s))) events).
  { clear -Hwhole. induction Hwhole as [|e l He _ IH]; [reflexivity |].
    cbn [map]. now rewrite IH, (mapped_whole _ _ _ He). }
  rewrite E in Hcs.
  split; [exact Hok |]. split; [exact Hcs |]. split; [| exact Hsame].
  now rewrite Hcs, length_app, length_map.
Qed.

(** X6.  Clicks with the undo modifier remove one vertex each, from the
    end, and stop at the empty list: after [n] of them the first
    [length - n] vertices are left.  They never end the session:
    [isDrawing] stays as it was, also once the list is empty. *)
Theorem undo_clicks_remove_last_vertices events : forall s sv,
  svg (this s) = Some sv ->
  Forall (fun event => held event (this s) "regretKey" = true) events ->
  completion (clicks events) s = Ok tt /\
  coords (this (exec (clicks events) s)) =
    take (length (coords (this s)) - length events) (coords (this s)) /\
  isDrawing (this (exec (clicks events) s)) = isDrawing (this s).
Proof.
  induction events as [|event events IH]; intros s sv Hsv Hall.
  - cbn. rewrite Nat.sub_0_r, firstn_all. auto.
  - apply Forall_cons in Hall as [Hu Hall].
    destruct (onClick_undo_run s event sv Hsv Hu) as (s1 & E & Hsame & Hcs & Hd).
    pose proof Hsame as (Ho & _ & _ & Hs & _).
    destruct (IH s1 sv) as (Hok & Hcoords & Hdraw).
    + congruence.
    + eapply Forall_impl; [exact Hall |].
      intros e A. cbn beta. now rewrite (held_same_options (this s) (this s1)).
    + unfold completion, exec in *. cbn [clicks]. js_run. rewrite E.
      split; [exact Hok |]. split; [| congruence].
      rewrite Hcoords, Hcs, removelast_firstn_len, length_take, take_take.
      cbn [length]. f_equal. lia.
Qed.

End ClickSequences.

(** ** What the handlers do to the document *)

Section HandlersAndDocument.

Implicit Types (b : Browser) (s : St) (event : Event) (i j : nat).

Lemma node_created (n : Node) b :
  node (set_nodes (nodes b ++ [n]) b) (length (nodes b)) = n.
Proof. unfold node. rewrite nodes_set_nodes. now rewrite list_lookup_middle. Qed.

Lemma orphan_detached i (ns tag : string) : orphan i (detached ns tag) = detached ns tag.
Proof. reflexivity. Qed.

Lemma node_orphaned i j b :
  node (set_nodes (orphan i <$> nodes b) b) j = orphan i (node b j).
Proof.
  unfold node. rewrite nodes_set_nodes, list_lookup_fmap.
  destruct (nodes b !! j); reflexivity.
Qed.

Lemma parent_orphan i (n : Node) : parentNode (orphan i n) <> Some i.
Proof.
  unfold orphan. destruct (decide (parentNode n = Some i)); [discriminate | assumption].
Qed.

Lemma orphan_other i (n : Node) : parentNode n <> Some i -> orphan i n = n.
Proof. intros H. unfold orphan. now rewrite decide_False. Qed.

Lemma attributes_orphan i (n : Node) : attributes (orphan i n) = attributes n.
Proof. unfold orphan. now destruct (decide _). Qed.

(** A change that keeps the attributes of every node keeps every
    attribute of the store. *)
Lemma attributes_alter_keep (f : Node -> Node) i j b :
  (forall n, attributes (f n) = attributes n) ->
  attributes (node (alter_node f i b) j) = attributes (node b j).
Proof.
  intros Hf. destruct (decide (i = j)) as [-> | Hne].
  - unfold node. rewrite nodes_alter_node, list_lookup_alter_eq.
    destruct (nodes b !! j); cbn; [apply Hf | reflexivity].
  - now rewrite node_alter_ne.
Qed.

Lemma attributes_created (ns tag : string) j b :
  attributes (node (set_nodes (nodes b ++ [detached ns tag]) b) j) =
  attributes (node b j).
Proof.
  destruct (decide (j < length (nodes b))%nat) as [Hlt | Hge].
  - now rewrite node_snoc_lt.
  - unfold node. rewrite nodes_set_nodes.
    rewrite (lookup_ge_None_2 (nodes b)) by lia.
    destruct (decide (j = length (nodes b))) as [-> | Hne].
    + now rewrite list_lookup_middle.
    + rewrite lookup_ge_None_2; [reflexivity |]. rewrite length_app. cbn. lia.
Qed.

Lemma attributes_cleared i j b :
  attributes (node (set_nodes (orphan i <$> nodes b) b) j) = attributes (node b j).
Proof. rewrite node_orphaned. apply attributes_orphan. Qed.

End HandlersAndDocument.

Ltac attr_simpl :=
  repeat first
    [ rewrite attributes_cleared
    | rewrite attributes_created
    | rewrite (attributes_alter_keep (with_style _ _)) by reflexivity
    | rewrite (attributes_alter_keep (with_parent _)) by reflexivity
    | rewrite (attributes_alter_keep (with_listener _)) by reflexivity ].

Ltac click_unfold :=
  unfold onClick, injectPolygon, regretPoint, closeMap, resetMaps, addVertex,
    getMousePosition, getElementOffset;
  unfold createElementNS, setStyle, appendChild, clear_innerHTML;
  js_run.

Section Rendering.

Implicit Types (b : Browser) (s : St) (event : Event) (i j : nat).

Lemma onClick_attributes s event j :
  attributes (node (dom (exec (onClick event) s)) j) = attributes (node (dom s) j).
Proof.
  destruct s as [[o e ns sv pg d cs] b].
  click_unfold.
  destruct pg as [pg|], sv as [sv|]; cbn;
    repeat (destruct (event_flag event _); cbn);
    try destruct cs; cbn; attr_simpl; reflexivity.
Qed.

(** X7.  Clicks never render: whatever they do (add, undo, finalize,
    clear, creating polygons), and whether or not they complete, the
    attributes of every node of the document, the [points] of every
    polygon among them, are after any sequence of clicks what they were
    before.  What a polygon shows changes on pointer moves only. *)
Theorem click_never_renders events : forall s j,
  attributes (node (dom (exec (clicks events) s)) j) = attributes (node (dom s) j).
Proof.
  induction events as [|event events IH]; intros s j; [reflexivity |].
  pose proof (onClick_attributes s event j) as Hclick.
  unfold exec in *. cbn [clicks]. unfold mbind, M_bind, bind.
  destruct (onClick event s) as [[[]|e] s1]; cbn [snd] in *.
  - now rewrite IH.
  - exact Hclick.
Qed.

Lemma injectPolygon_run s sv :
  svg (this s) = Some sv ->
  exists b',
    injectPolygon s =
      (Ok tt, {| this := with_polygon (Some (length (nodes (dom s)))) (this s);
                 dom := b' |}) /\
    length (nodes b') = S (length (nodes (dom s))) /\
    (forall j, (j < length (nodes (dom s)))%nat -> node b' j = node (dom s) j) /\
    node b' (length (nodes (dom s))) =
      {| tagName := "polygon"; namespaceURI := xmlns (this s);
         parentNode := Some sv; attributes := ∅;
         style := <["strokeWidth" := ToString (option_of (this s) "strokeWidth")]>
                    (<["stroke" := ToString (option_of (this s) "strokeColor")]>
                       (<["fill" := ToString (option_of (this s) "fillColor")]> ∅));
         listeners := []; clientWidth := 0; clientHeight := 0 |}.
Proof.
  intros Hsv. destruct s as [[o e ns sv' pg d cs] b]. cbn in Hsv. subst sv'.
  unfold injectPolygon, createElementNS, setStyle, appendChild. js_run.
  eexists. split; [reflexivity |]. split; [| split].
  - dom_simpl. reflexivity.
  - intros j Hj. rewrite !node_alter_ne by lia. now rewrite node_snoc_lt.
  - rewrite !node_alter_eq by dom_lia. now rewrite node_created.
Qed.

(** X9.  A click with the finalize modifier on a widget that has no
    polygon (nothing drawn since construction, finalize or clear-all)
    still creates a polygon first and then lets go of it: the document
    gains an empty [polygon] under the overlay each time, and the session
    stays empty and inactive. *)
Theorem idle_finalize_click_leaves_empty_polygon s event sv :
  svg (this s) = Some sv ->
  polygon (this s) = None ->
  held event (this s) "regretKey" = false ->
  held event (this s) "closeKey" = true ->
  exists s',
    onClick event s = (Ok tt, s') /\
    polygon (this s') = None /\ coords (this s') = [] /\
    isDrawing (this s') = false /\
    length (nodes (dom s')) = S (length (nodes (dom s))) /\
    tagName (node (dom s') (length (nodes (dom s)))) = "polygon" /\
    parentNode (node (dom s') (length (nodes (dom s)))) = Some sv /\
    attributes (node (dom s') (length (nodes (dom s)))) = ∅.
Proof.
  intros Hsv Hpg Hu Hf.
  destruct (injectPolygon_run s sv Hsv) as (b' & E & Hlen & _ & Hnew).
  assert (Hens : ensurePolygon s =
                 (Ok tt, {| this := with_polygon (Some (length (nodes (dom s)))) (this s);
                            dom := b' |})).
  { unfold ensurePolygon. js_run. rewrite Hpg. cbn. exact E. }
  rewrite (onClick_then s event closeMap).
  2: { intros s' ->. apply dispatch_finalize; now rewrite held_after_ensurePolygon. }
  js_run. rewrite Hens. cbn.
  eexists. split; [reflexivity |]. cbn. rewrite Hnew. repeat split; auto.
Qed.

Lemma filter_none {A} (P : A -> Prop) `{!forall a, Decision (P a)} (l : list A) :
  (forall a, ~ P a) -> filter P l = [].
Proof.
  intros Hno. induction l as [|a l IH]; [reflexivity |].
  now rewrite filter_cons_False.
Qed.

Lemma ensurePolygon_nodes s sv :
  svg (this s) = Some sv ->
  exists s1,
    ensurePolygon s = (Ok tt, s1) /\
    svg (this s1) = Some sv /\
    (length (nodes (dom s)) <= length (nodes (dom s1)))%nat /\
    (forall j, (j < length (nodes (dom s)))%nat -> node (dom s1) j = node (dom s) j).
Proof.
  intros Hsv. unfold ensurePolygon. js_run.
  destruct (polygon (this s)) as [pg|] eqn:Hpg; cbn.
  - exists s. auto.
  - destruct (injectPolygon_run s sv Hsv) as (b' & E & Hlen & Hold & _).
    rewrite E. eexists. split; [reflexivity |]. cbn. split; [exact Hsv |].
    split; [lia | exact Hold].
Qed.

(** X10.  A click with the clear-all modifier empties the overlay: after
    it no node of the document has the overlay as its parent, whichever
    widget state, finished polygons or polygon in progress there were;
    the nodes that were not under the overlay are what they were; and the
    session is empty and inactive, without a polygon. *)
Theorem clear_click_empties_overlay s event sv :
  svg (this s) = Some sv ->
  held event (this s) "regretKey" = false ->
  held event (this s) "closeKey" = false ->
  held event (this s) "resetKey" = true ->
  exists s',
    onClick event s = (Ok tt, s') /\
    childNodes (dom s') sv = [] /\
    (forall j, parentNode (node (dom s') j) <> Some sv) /\
    (forall j, (j < length (nodes (dom s)))%nat ->
       parentNode (node (dom s) j) <> Some sv ->
       node (dom s') j = node (dom s) j) /\
    polygon (this s') = None /\ coords (this s') = [] /\
    isDrawing (this s') = false.
Proof.
  intros Hsv Hu Hf Hc.
  destruct (ensurePolygon_nodes s sv Hsv) as (s1 & E & Hsv1 & Hlen & Hold).
  rewrite (onClick_then s event resetMaps).
  2: { intros s' ->. apply dispatch_clearAll; now rewrite held_after_ensurePolygon. }
  js_run. rewrite E, (resetMaps_attached s1 sv Hsv1).
  eexists. split; [reflexivity |]. cbn [this dom with_coords with_polygon
    with_isDrawing polygon coords isDrawing].
  unfold exec, clear_innerHTML, modify. cbn [snd].
  assert (Hnone : forall j, parentNode
            (node (set_nodes (orphan sv <$> nodes (dom s1)) (dom s1)) j) <> Some sv).
  { intros j. rewrite node_orphaned. apply parent_orphan. }
  split; [| split; [exact Hnone | split; [| auto]]].
  - unfold childNodes. apply filter_none. exact Hnone.
  - intros j Hj Hp. rewrite node_orphaned, (Hold j Hj). now apply orphan_other.
Qed.

(** *** Polygons the widget has let go of *)

Lemma onClick_keeps_released (pg0 : nat) s event :
  released pg0 s -> released pg0 (exec (onClick event) s).
Proof.
  unfold released. destruct s as [[o e ns sv pg d cs] b]. cbn.
  intros [Hlt Hne]. click_unfold.
  destruct pg as [pg|], sv as [sv|]; cbn;
    repeat (destruct (event_flag event _); cbn);
    try destruct cs; cbn;
    rewrite ?nodes_set_nodes, ?nodes_alter_node, ?length_fmap, ?length_alter,
      ?nodes_set_nodes, ?length_app;
    cbn [length];
    (split; [lia | first [assumption | discriminate | intros [= ?]; lia]]).
Qed.

Lemma onMove_keeps_released (pg0 : nat) s event :
  released pg0 s ->
  released pg0 (exec (onMove event) s) /\
  attributes (node (dom (exec (onMove event) s)) pg0) =
  attributes (node (dom s) pg0).
Proof.
  unfold released. destruct s as [[o e ns sv pg d cs] b]. cbn.
  intros [Hlt Hne].
  unfold onMove, renderNewPoint, getMousePosition, getElementOffset, setAttribute.
  js_run.
  destruct d; cbn; [| auto].
  destruct cs as [|c cs]; cbn; [auto |].
  destruct pg as [pg|]; cbn; [| auto].
  rewrite length_nodes_alter, node_alter_ne by congruence. auto.
Qed.

(** X11.  A polygon the widget has let go of is never drawn into again:
    once a node is not the widget's current polygon (as every polygon is
    after finalize), no sequence of clicks and moves changes its
    attributes, so the [points] of a finished shape stay what the last
    move before the finalize rendered. *)
Theorem released_polygon_is_never_redrawn (pg : nat) s s' :
  (pg < length (nodes (dom s)))%nat ->
  polygon (this s) <> Some pg ->
  rtc handles_next s s' ->
  attributes (node (dom s') pg) = attributes (node (dom s) pg) /\
  polygon (this s') <> Some pg.
Proof.
  intros Hlt Hne Hr.
  assert (Hrel : released pg s) by (split; assumption). clear Hlt Hne.
  induction Hr as [s | s s1 s' (event & [-> | ->]) _ IH].
  - destruct Hrel. auto.
  - destruct (IH (onClick_keeps_released pg s event Hrel)) as [Ha Hp].
    split; [| exact Hp]. rewrite Ha. apply onClick_attributes.
  - destruct (onMove_keeps_released pg s event Hrel) as [Hrel' Hattr].
    destruct (IH Hrel') as [Ha Hp].
    split; [| exact Hp]. now rewrite Ha.
Qed.

End Rendering.

(** ** A constructed widget handles every event *)

Section Readiness.

Implicit Types (s : St) (event : Event) (w : World).

Lemma onClick_keeps_ready s event :
  ready (this s) ->
  completion (onClick event) s = Ok tt /\ ready (this (exec (onClick event) s)).
Proof.
  unfold ready. destruct s as [[o e ns sv pg d cs] b]. cbn.
  intros [[sv' ->] Hpg]. click_unfold.
  destruct pg as [pg|]; cbn;
    repeat (destruct (event_flag event _); cbn);
    try destruct cs; cbn; repeat split; eauto; discriminate.
Qed.

Lemma onMove_keeps_ready s event :
  ready (this s) ->
  completion (onMove event) s = Ok tt /\ ready (this (exec (onMove event) s)).
Proof.
  intros Hr. split; [| now rewrite onMove_same_this].
  destruct Hr as [_ Hpg]. destruct s as [[o e ns sv pg d cs] b]. cbn in Hpg.
  unfold onMove, renderNewPoint, getMousePosition, getElementOffset, setAttribute.
  js_run.
  destruct d; cbn; [| reflexivity].
  destruct cs as [|c cs]; cbn; [reflexivity |].
  destruct (Hpg eq_refl) as [p ->]. reflexivity.
Qed.

Lemma handled_keeps_ready s s' : rtc handles s s' -> ready (this s) -> ready (this s').
Proof.
  induction 1 as [s | s s1 s' (event & b & [-> | ->]) _ IH]; [auto | |]; intros Hr;
    apply IH.
  - now apply (onClick_keeps_ready {| this := this s; dom := b |}).
  - now apply (onMove_keeps_ready {| this := this s; dom := b |}).
Qed.


(** X13.  A move is ignored, and the document left as it is, unless the
    widget is drawing and has a vertex: so after a finalize; and after
    an undo that removes the only vertex, where [isDrawing] is still set
    and the polygon keeps the [points] rendered last. *)
Theorem move_without_vertices_is_ignored s event :
  (isDrawing (this s) = false \/ coords (this s) = [] ->
     onMove event s = (Ok tt, s)) /\
  (closeMap;; onMove event) s = closeMap s /\
  ((length (coords (this s)) <= 1)%nat ->
     (regretPoint;; onMove event) s = regretPoint s /\
     isDrawing (this (exec regretPoint s)) = isDrawing (this s) /\
     dom (exec regretPoint s) = dom s).
Proof.
  assert (Hguard : forall s0, isDrawing (this s0) = false \/ coords (this s0) = [] ->
                              onMove event s0 = (Ok tt, s0)).
  { intros s0 H. unfold onMove. js_run.
    destruct H as [-> | ->]; [reflexivity |].
    now rewrite orb_true_r. }
  split; [apply Hguard |]. split.
  - js_run. rewrite closeMap_spec. apply Hguard. cbn. auto.
  - intros Hlen. js_run. rewrite regretPoint_eq. cbn.
    split; [| auto]. apply Hguard. right. cbn.
    destruct (coords (this s)) as [|c [|c' cs]]; cbn in *; [reflexivity .. | lia].
Qed.

End Readiness.

(** ** What construction builds around the element *)

Section CreatedNodes.

Lemma node_created_at (n : Node) (b : Browser) (i : nat) :
  i = length (nodes b) -> node (set_nodes (nodes b ++ [n]) b) i = n.
Proof. intros ->. apply node_created. Qed.

(** A field that a change keeps on every node is kept on every node of
    the store; a field that reads on a created element as on a node that
    is not there is kept by creation. *)
Lemma field_alter_keep {A} (g : Node -> A) (f : Node -> Node) (i j : nat) (b : Browser) :
  (forall n, g (f n) = g n) ->
  g (node (alter_node f i b) j) = g (node b j).
Proof.
  intros Hf. destruct (decide (i = j)) as [-> | Hne].
  - unfold node. rewrite nodes_alter_node, list_lookup_alter_eq.
    destruct (nodes b !! j); cbn; [apply Hf | reflexivity].
  - now rewrite node_alter_ne.
Qed.

Lemma field_created {A} (g : Node -> A) (ns tag : string) (j : nat) (b : Browser) :
  g (detached ns tag) = g (detached "" "") ->
  g (node (set_nodes (nodes b ++ [detached ns tag]) b) j) = g (node b j).
Proof.
  intros Hg. destruct (decide (j < length (nodes b))%nat) as [Hlt | Hge].
  - now rewrite node_snoc_lt.
  - unfold node. rewrite nodes_set_nodes.
    rewrite (lookup_ge_None_2 (nodes b)) by lia.
    destruct (decide (j = length (nodes b))) as [-> | Hne].
    + now rewrite list_lookup_middle.
    + rewrite lookup_ge_None_2; [reflexivity |]. rewrite length_app. cbn. lia.
Qed.

End CreatedNodes.

Ltac listeners_simpl :=
  repeat first
    [ rewrite (field_created listeners) by reflexivity
    | rewrite (field_alter_keep listeners (with_style _ _)) by reflexivity
    | rewrite (field_alter_keep listeners (with_attribute _ _)) by reflexivity
    | rewrite (field_alter_keep listeners (with_parent _)) by reflexivity ].

Ltac node_simpl :=
  repeat first
    [ rewrite node_alter_ne by dom_lia
    | rewrite node_alter_eq by dom_lia
    | rewrite node_snoc_lt by dom_lia
    | rewrite node_created_at by dom_lia ].

Section Scaffolding.

Implicit Types (b : Browser) (s : St).

Lemma same_markup_refl (n : Node) : same_markup n n.
Proof. unfold same_markup. auto 10. Qed.

(** What [initialize] does with [wrapImages] set, element by element. *)
Lemma initialize_wrapping_run s (p : nat) :
  parentNode (node (dom s) (element (this s))) = Some p ->
  ToBoolean (option_of (this s) "wrapImages") = true ->
  let el := element (this s) in
  let wrapper := length (nodes (dom s)) in
  let overlay := S wrapper in
  exists s',
    initialize s = (Ok tt, s') /\
    this s' = with_svg (Some overlay) (this s) /\
    length (nodes (dom s')) = S overlay /\
    node (dom s') el = with_parent (Some wrapper) (node (dom s) el) /\
    node (dom s') wrapper =
      {| tagName := "div"; namespaceURI := xhtml; parentNode := Some p;
         attributes := ∅;
         style := <["position" := "relative"]> (<["display" := "inline-block"]> ∅);
         listeners := bound_listeners el;
         clientWidth := 0; clientHeight := 0 |} /\
    node (dom s') overlay =
      {| tagName := "svg"; namespaceURI := xmlns (this s);
         parentNode := Some wrapper;
         attributes := <["viewBox" := viewBox_of (node (dom s) el)]> ∅;
         style := <["top" := "0"]> (<["left" := "0"]>
                    (<["position" := "absolute"]>
                       (<["webkitUserSelect" := "none"]> ∅)));
         listeners := []; clientWidth := 0; clientHeight := 0 |} /\
    (forall j, (j < wrapper)%nat -> j <> el -> node (dom s') j = node (dom s) j).
Proof.
  intros Hp Hw el wrapper overlay. subst el wrapper overlay.
  pose proof (attached_in_store _ _ _ Hp) as Hlt.
  destruct s as [[o e ns sv pg d cs] b]. cbn in Hp, Hlt, Hw |- *.
  dom_unfold. rewrite Hw. cbn.
  repeat (progress (dom_simpl; try rewrite Hp; cbn)).
  eexists. split; [reflexivity |]. cbn.
  split; [reflexivity |]. split; [dom_simpl; reflexivity |].
  split; [| split; [| split]].
  - erewrite node_logged by reflexivity. node_simpl. reflexivity.
  - erewrite node_logged by reflexivity. node_simpl. reflexivity.
  - erewrite node_logged by reflexivity. node_simpl. reflexivity.
  - intros j Hj Hne. erewrite node_logged by reflexivity. node_simpl. reflexivity.
Qed.


(** What [initialize] does with [wrapImages] unset, element by element. *)
Lemma initialize_unwrapped_run s (p : nat) :
  parentNode (node (dom s) (element (this s))) = Some p ->
  (p < length (nodes (dom s)))%nat ->
  ToBoolean (option_of (this s) "wrapImages") = false ->
  let el := element (this s) in
  let overlay := length (nodes (dom s)) in
  exists s',
    initialize s = (Ok tt, s') /\
    this s' = with_svg (Some overlay) (this s) /\
    length (nodes (dom s')) = S overlay /\
    node (dom s') overlay =
      {| tagName := "svg"; namespaceURI := xmlns (this s);
         parentNode := Some p;
         attributes := <["viewBox" := viewBox_of (node (dom s) el)]> ∅;
         style := <["top" := "0"]> (<["left" := "0"]>
                    (<["position" := "absolute"]>
                       (<["webkitUserSelect" := "none"]> ∅)));
         listeners := []; clientWidth := 0; clientHeight := 0 |} /\
    node (dom s') p =
      with_listener {| l_type := "mousemove"; l_handler := OnMove; l_this := el |}
        (with_listener {| l_type := "click"; l_handler := OnClick; l_this := el |}
           (node (dom s) p)) /\
    (forall j, (j < overlay)%nat -> j <> p -> node (dom s') j = node (dom s) j).
Proof.
  intros Hp Hlp Hw el overlay. subst el overlay.
  pose proof (attached_in_store _ _ _ Hp) as Hlt.
  destruct s as [[o e ns sv pg d cs] b]. cbn in Hp, Hlt, Hlp, Hw |- *.
  dom_unfold. rewrite Hw. cbn.
  repeat (progress (dom_simpl; try rewrite Hp; cbn)).
  eexists. split; [reflexivity |]. cbn.
  split; [reflexivity |]. split; [dom_simpl; reflexivity |].
  split; [| split].
  - erewrite node_logged by reflexivity. node_simpl. reflexivity.
  - erewrite node_logged by reflexivity. node_simpl. reflexivity.
  - intros j Hj Hne. erewrite node_logged by reflexivity. node_simpl. reflexivity.
Qed.

(** X15.  With [wrapImages] unset, on an element whose parent is an
    element, [initialize] completes: it leaves the element where it is;
    it appends the [svg] overlay, whose [viewBox] is the client size of
    the element, to the element's parent; it binds the click and
    mousemove listeners on that parent, after the listeners the parent
    already had, and changes nothing else of the parent; the widget gets
    the overlay as [this.svg]; no other element of the document changes
    its name, parent, attributes, inline style or listeners. *)
Theorem initialize_without_wrapper s (p : nat) :
  parentNode (node (dom s) (element (this s))) = Some p ->
  (p < length (nodes (dom s)))%nat ->
  ToBoolean (option_of (this s) "wrapImages") = false ->
  let el := element (this s) in
  let overlay := length (nodes (dom s)) in
  exists s',
    initialize s = (Ok tt, s') /\
    this s' = with_svg (Some overlay) (this s) /\
    length (nodes (dom s')) = S overlay /\
    (tagName (node (dom s') overlay) = "svg" /\
     namespaceURI (node (dom s') overlay) = xmlns (this s) /\
     parentNode (node (dom s') overlay) = Some p /\
     attributes (node (dom s') overlay) !! "viewBox" =
       Some (viewBox_of (node (dom s) el)) /\
     listeners (node (dom s') overlay) = []) /\
    listeners (node (dom s') p) =
      (listeners (node (dom s) p) ++ bound_listeners el)%list /\
    (tagName (node (dom s') p) = tagName (node (dom s) p) /\
     parentNode (node (dom s') p) = parentNode (node (dom s) p) /\
     attributes (node (dom s') p) = attributes (node (dom s) p) /\
     style (node (dom s') p) = style (node (dom s) p)) /\
    (forall j, (j < overlay)%nat -> j <> p ->
       same_markup (node (dom s) j) (node (dom s') j)).
Proof.
  intros Hp Hlp Hw el overlay.
  destruct (initialize_unwrapped_run s p Hp Hlp Hw)
    as (s' & E & Hthis & Hlen & Hov & Hpar & Hframe).
  fold el overlay in Hthis, Hlen, Hov, Hpar, Hframe.
  exists s'. split; [exact E |]. split; [exact Hthis |]. split; [exact Hlen |].
  split; [rewrite Hov; cbn; rewrite lookup_insert_eq; auto 10 |].
  split; [rewrite Hpar; cbn; now rewrite <- app_assoc |].
  split; [rewrite Hpar; cbn; auto |].
  intros j Hj Hne. rewrite (Hframe j Hj Hne). apply same_markup_refl.
Qed.

(** X16.  [initialize] on an element that has no parent throws a
    TypeError and is without effect on what was there: the widget is not
    given an overlay, no listener is bound, and every node the document
    had is as it was (the [div] or [svg] created before the failure is
    left unattached). *)
Theorem failed_initialize_changes_nothing s :
  parentNode (node (dom s) (element (this s))) = None ->
  exists s' msg,
    initialize s = (Throw (TypeError msg), s') /\
    this s' = this s /\
    (forall j, (j < length (nodes (dom s)))%nat -> node (dom s') j = node (dom s) j) /\
    (forall j, parentNode (node (dom s') j) = parentNode (node (dom s) j)) /\
    (forall j, listeners (node (dom s') j) = listeners (node (dom s) j)).
Proof.
  intros Hp.
  destruct s as [[o e ns sv pg d cs] b]. cbn in Hp |- *.
  dom_unfold.
  destruct (ToBoolean _); cbn;
    repeat (progress (dom_simpl; try rewrite Hp; cbn));
    eexists _, _; (split; [reflexivity |]); cbn; (split; [reflexivity |]);
    (split; [| split]); intros j.
  - intros Hj. node_simpl. reflexivity.
  - dom_simpl. reflexivity.
  - listeners_simpl. reflexivity.
  - intros Hj. node_simpl. reflexivity.
  - dom_simpl. reflexivity.
  - listeners_simpl. reflexivity.
Qed.

(** X20.  The document element cannot be given a widget.  On the
    element whose parent is the document, [initialize] throws a
    HierarchyRequestError, with [wrapImages] set or not: the document
    takes neither the wrapper nor the overlay as a second element.  The
    widget is not given an overlay, no listener is bound on any element
    or on the document, and every element the document had is as it was
    (the [div] or [svg] created before the failure is left unattached). *)
Theorem documentElement_cannot_be_initialised s :
  parentNode (node (dom s) (element (this s))) = Some Document ->
  exists s',
    initialize s = (Throw (DOMException "HierarchyRequestError"), s') /\
    this s' = this s /\
    document_listeners (dom s') = document_listeners (dom s) /\
    (forall j, (j < length (nodes (dom s)))%nat -> node (dom s') j = node (dom s) j) /\
    (forall j, parentNode (node (dom s') j) = parentNode (node (dom s) j)) /\
    (forall j, listeners (node (dom s') j) = listeners (node (dom s) j)).
Proof.
  intros Hp. pose proof (attached_in_store _ _ _ Hp) as Hlt.
  destruct s as [[o e ns sv pg d cs] b]. cbn in Hp, Hlt |- *.
  dom_unfold.
  destruct (ToBoolean _); cbn.
  - repeat (progress (dom_simpl; try rewrite Hp; cbn)).
    eexists. split; [reflexivity |]. cbn. split; [reflexivity |].
    split; [reflexivity |]. split; [| split]; intros j.
    + intros Hj. node_simpl. reflexivity.
    + dom_simpl. reflexivity.
    + listeners_simpl. reflexivity.
  - repeat (progress (dom_simpl; try rewrite Hp; cbn)).
    erewrite (has_documentElement_intro _ e) by (dom_simpl; exact Hp). cbn.
    eexists. split; [reflexivity |]. cbn. split; [reflexivity |].
    split; [reflexivity |]. split; [| split]; intros j.
    + intros Hj. node_simpl. reflexivity.
    + dom_simpl. reflexivity.
    + listeners_simpl. reflexivity.
Qed.

End Scaffolding.

(** ** The exposed function when nothing fails, and when the options do *)

Section ExposedOutcomes.

Variable querySelectorAll : Browser -> string -> list nat.

Implicit Types (w : World) (opts : value) (els : list nat).

Lemma loop_all_attached els opts (o : gmap string value) :
  extend ∅ [defaults; opts] = Ok o ->
  NoDup els ->
  forall n w,
    (n <= length els)%nat ->
    (forall j e, (j < n)%nat -> els !! j = Some e ->
       has_parent_element (browser w) e) ->
    exists w',
      loop els opts n w = (Ok tt, w') /\
      element <$> instances w' =
      ((element <$> instances w) ++ reverse (take n els))%list.
Proof.
  intros Ho Hnd n.
  induction n as [|i IH]; intros w Hn Hall.
  - exists w. split; [reflexivity |]. cbn. now rewrite app_nil_r.
  - cbn [loop]. unfold mbind, M_bind, bind.
    assert (Hlt : (i < length els)%nat) by lia.
    destruct (lookup_lt_is_Some_2 els i Hlt) as [e He]. rewrite He.
    destruct (Hall i e ltac:(lia) He) as [p Hp].
    destruct (drawMaps_attached e opts w o p Ho Hp)
      as (w1 & wd & -> & Hi & Hel & Hlen & Hframe).
    destruct (IH w1) as (w' & -> & Hinst).
    + lia.
    + intros j e' Hj He'.
      destruct (Hall j e' ltac:(lia) He') as [p' Hp'].
      exists p'. rewrite Hframe; [eauto | eapply attached_in_store; eauto |].
      intros ->. assert (j = i) by (eapply NoDup_lookup; eauto). lia.
    + exists w'. split; [reflexivity |].
      rewrite Hinst, Hi, fmap_app. cbn [fmap list_fmap]. rewrite Hel.
      rewrite <- app_assoc. f_equal.
      rewrite (take_S_r _ _ _ He), reverse_app. reflexivity.
Qed.


(** X18.  Options with an object-valued own enumerable property, the
    built-in [hasOwnProperty] and no function for [__proto__] make the
    exposed function throw the
    ReferenceError at the first element it visits, with nothing
    constructed and the document untouched; but when the selector matches
    nothing, the options are never looked at and the call completes
    without a trace of the defect. *)
Theorem exposed_with_object_valued_options (selector : string) opts w :
  hasOwnProperty_of opts = Builtin ->
  keeps_prototype opts = true ->
  has_object_valued_property opts ->
  let els := querySelectorAll (browser w) selector in
  (els = [] -> exposed querySelectorAll selector opts w = (Ok tt, w)) /\
  (els <> [] ->
     exposed querySelectorAll selector opts w =
     (Throw (ReferenceError "deepExtend"), w)).
Proof.
  intros Hb _ Hobj els.
  unfold exposed. js_run. fold els.
  pose proof (extend_object_valued opts Hb Hobj) as E. split.
  - intros ->. reflexivity.
  - intros Hne. destruct (length els) as [|i] eqn:Hlen.
    { destruct els; [congruence | discriminate]. }
    cbn [loop]. unfold mbind, M_bind, bind.
    destruct (lookup_lt_is_Some_2 els i ltac:(lia)) as [e ->].
    unfold drawMaps. rewrite E. reflexivity.
Qed.

End ExposedOutcomes.

(** ** Configured modifiers *)

Section ConfiguredModifiers.

Implicit Types (w : World) (opts : value).

Lemma drawMaps_options el opts w w' :
  drawMaps el opts w = (Ok tt, w') ->
  exists o wd,
    extend ∅ [defaults; opts] = Ok o /\
    last (instances w') = Some wd /\ options wd = o.
Proof.
  unfold drawMaps. destruct (extend ∅ [defaults; opts]) as [o|]; [| discriminate].
  set (s := {| this := _; dom := browser w |}).
  destruct (initialize s) as [[[]|e] s'] eqn:E; [| discriminate].
  destruct (initialize_completes s s' E) as (p & sv & _ & Hthis).
  intros [= <-]. exists o, (this s'). split; [reflexivity |].
  cbn. rewrite last_snoc, Hthis. auto.
Qed.

(** X19.  The modifier a constructed widget obeys is the one its options
    argument names.  For options that [extend] reads with the built-in
    [hasOwnProperty], each of the seven options the defaults define is
    the own enumerable property of the argument when there is one, and
    the default otherwise; so for each of [regretKey], [closeKey] and
    [resetKey] that is configured as a string, the widget tests the event
    property of that name: a renamed modifier takes the place of the
    default, which no longer triggers the action. *)
Theorem configured_modifier_is_obeyed el opts w w' :
  plain_options opts ->
  drawMaps el opts w = (Ok tt, w') ->
  exists wd,
    last (instances w') = Some wd /\
    forall name : string,
      is_Some (default_options !! name) ->
      option_of wd name = configured opts name /\
      forall (event : Event) (key : string),
        configured opts name = VStr key ->
        held event wd name = event_flag event (VStr key).
Proof.
  intros [Hplain _] H.
  destruct (drawMaps_options _ _ _ _ H) as (o & wd & Ho & Hl & Hwd).
  exists wd. split; [exact Hl |].
  intros name Hdef.
  assert (Hname : name <> "__proto__") by (intros ->; destruct Hdef; discriminate).
  assert (E : option_of wd name = configured opts name).
  { unfold option_of, configured.
    rewrite Hwd, (extend_lookup opts o name Hplain Ho).
    rewrite (proj2 (String.eqb_neq name "__proto__") Hname). cbn [negb].
    rewrite andb_true_r. now destruct (enumerable_own opts name). }
  split; [exact E |].
  intros event key Hkey. unfold held. now rewrite E, Hkey.
Qed.

End ConfiguredModifiers.

(** ** Further worked examples *)

Section MoreExamples.

Import Sample MoreSamples.

Lemma merged_options_lookup_witness :
  custom_merged !! "__proto__" = None /\
  custom_merged !! "regretKey" = Some (VStr "ctrlKey") /\
  custom_merged !! "closeKey" = Some (VStr "shiftKey").
Proof.
  assert (Hp : plain_options custom_options) by (split; [right |]; reflexivity).
  assert (Ho : extend ∅ [defaults; custom_options] = Ok custom_merged)
    by (vm_compute; reflexivity).
  destruct (merged_options_lookup custom_options custom_merged Hp Ho) as [H0 H].
  destruct (H "regretKey") as (H1 & _ & _).
  destruct (H "closeKey") as (_ & H2 & _).
  split; [exact H0 |]. split.
  - apply H1; [vm_compute; reflexivity | discriminate].
  - rewrite H2 by (vm_compute; reflexivity). vm_compute. reflexivity.
Defined.

Lemma propertyless_options_are_no_options_witness :
  extend ∅ [defaults; inheriting_options] = Ok default_options /\
  forall el w, drawMaps el inheriting_options w = drawMaps el VUndefined w.
Proof.
  apply (propertyless_options_are_no_options inheriting_options).
  - right. reflexivity.
  - reflexivity.
Defined.

Lemma mapper_exact_on_whole_pixels_witness :
  getMousePosition (click 3 60 []) session = (Ok {| x := -7; y := 50 |}, session).
Proof.
  apply (mapper_exact_on_whole_pixels session (click 3 60 [])).
  unfold whole_pixels, whole. vm_compute.
  repeat split; try reflexivity; discriminate.
Defined.

Lemma plain_clicks_store_vertices_in_order_witness :
  completion (clicks [plain_click_1; plain_click_2; plain_click_2]) session = Ok tt /\
  coords (this (exec (clicks [plain_click_1; plain_click_2; plain_click_2]) session)) =
    [(100, 50); (120, 70); (120, 70)].
Proof.
  destruct (plain_clicks_store_vertices_in_order
              [plain_click_1; plain_click_2; plain_click_2] session 5%nat)
    as (H1 & H2 & _).
  - reflexivity.
  - repeat constructor; vm_compute; reflexivity.
  - do 3 (constructor;
            [unfold whole_pixels, whole; vm_compute;
             repeat split; try reflexivity; discriminate |]).
    constructor.
  - split; [exact H1 |]. rewrite H2. vm_compute. reflexivity.
Defined.

Lemma undo_clicks_remove_last_vertices_witness :
  coords (this (exec (clicks [undo_click; undo_click_2; undo_click]) drawing)) = [] /\
  isDrawing (this (exec (clicks [undo_click; undo_click_2; undo_click]) drawing)) = true.
Proof.
  destruct (undo_clicks_remove_last_vertices
              [undo_click; undo_click_2; undo_click] drawing 5%nat)
    as (_ & H2 & H3).
  - vm_compute. reflexivity.
  - repeat constructor; vm_compute; reflexivity.
  - split; [exact H2 | exact H3].
Defined.

Lemma idle_finalize_click_leaves_empty_polygon_witness :
  exists s',
    onClick finalize_click session = (Ok tt, s') /\
    polygon (this s') = None /\
    length (nodes (dom s')) = 7%nat /\
    tagName (node (dom s') 6) = "polygon" /\
    parentNode (node (dom s') 6) = Some 5%nat.
Proof.
  destruct (idle_finalize_click_leaves_empty_polygon session finalize_click 5%nat)
    as (s' & E & Hp & _ & _ & Hl & Ht & Hpar & _);
    try (vm_compute; reflexivity).
  exists s'. auto.
Defined.

Lemma clear_click_empties_overlay_witness :
  exists s',
    onClick clear_click drawing = (Ok tt, s') /\
    childNodes (dom s') 5 = [] /\
    node (dom s') 1 = node (dom drawing) 1.
Proof.
  destruct (clear_click_empties_overlay drawing clear_click 5%nat)
    as (s' & E & Hc & _ & Hold & _);
    try (vm_compute; reflexivity).
  exists s'. split; [exact E |]. split; [exact Hc |].
  apply Hold; [vm_compute; lia | vm_compute; discriminate].
Defined.

Lemma released_polygon_is_never_redrawn_witness :
  let finished := exec (onMove plain_click_1;; onClick finalize_click) drawing in
  let later := exec (onClick plain_click_1;; onMove plain_click_2) finished in
  attributes (node (dom later) 6) = attributes (node (dom finished) 6) /\
  polygon (this later) <> Some 6%nat.
Proof.
  intros finished later.
  apply (released_polygon_is_never_redrawn 6 finished later).
  - vm_compute. lia.
  - vm_compute. discriminate.
  - eapply rtc_l; [exists plain_click_1; left; reflexivity |].
    eapply rtc_l; [exists plain_click_2; right; reflexivity |].
    assert (E : later = exec (onMove plain_click_2) (exec (onClick plain_click_1) finished))
      by (vm_compute; reflexivity).
    rewrite E. apply rtc_refl.
Defined.


Lemma move_without_vertices_is_ignored_witness :
  onMove plain_click_1 session = (Ok tt, session) /\
  (regretPoint;; onMove plain_click_1) session = regretPoint session.
Proof.
  pose proof (move_without_vertices_is_ignored session plain_click_1)
    as (H1 & _ & H3).
  split.
  - apply H1. left. reflexivity.
  - apply H3. cbn. lia.
Defined.


Lemma initialize_without_wrapper_witness :
  exists s',
    initialize (fresh unwrapped_options 1) = (Ok tt, s') /\
    svg (this s') = Some 4%nat /\
    parentNode (node (dom s') 4) = Some 0%nat /\
    listeners (node (dom s') 0) = bound_listeners 1 /\
    listeners (node (dom s') 1) = [].
Proof.
  destruct (initialize_without_wrapper (fresh unwrapped_options 1) 0%nat)
    as (s' & E & Ht & _ & (_ & _ & Ho & _) & Hl & _ & Hold);
    try (vm_compute; reflexivity); [vm_compute; lia |].
  change (element (this (fresh unwrapped_options 1))) with 1%nat in *.
  change (length (nodes (dom (fresh unwrapped_options 1)))) with 4%nat in *.
  exists s'. split; [exact E |]. rewrite Ht, Ho, Hl. cbn.
  repeat split.
  destruct (Hold 1%nat) as (_ & _ & _ & _ & _ & H); [lia | discriminate |].
  exact H.
Defined.

Lemma documentElement_cannot_be_initialised_witness :
  exists s',
    initialize (fresh default_options 0) =
      (Throw (DOMException "HierarchyRequestError"), s') /\
    this s' = this (fresh default_options 0) /\
    forall j, listeners (node (dom s') j) = listeners (node page j).
Proof.
  destruct (documentElement_cannot_be_initialised (fresh default_options 0))
    as (s' & E & Ht & _ & _ & _ & Hl); [reflexivity |].
  exists s'. auto.
Defined.

Lemma shadowed_hasOwnProperty_breaks_merge_witness :
  extend ∅ [defaults; shadowing_flat_options] =
    Throw (TypeError "obj.hasOwnProperty is not a function") /\
  extend ∅ [defaults; bare_options] =
    Throw (TypeError "obj.hasOwnProperty is not a function").
Proof.
  split.
  - apply (shadowed_hasOwnProperty_breaks_merge shadowing_flat_options);
      [reflexivity | right; exists (VNum 1); split; [reflexivity | discriminate]
      | discriminate].
  - apply (shadowed_hasOwnProperty_breaks_merge bare_options);
      [reflexivity | left; reflexivity | discriminate].
Defined.

Lemma failed_initialize_changes_nothing_witness :
  exists s' msg,
    initialize (fresh default_options 2) = (Throw (TypeError msg), s') /\
    this s' = this (fresh default_options 2) /\
    forall j, listeners (node (dom s') j) = listeners (node page j).
Proof.
  destruct (failed_initialize_changes_nothing (fresh default_options 2))
    as (s' & msg & E & Ht & _ & _ & Hl); [reflexivity |].
  exists s', msg. auto.
Defined.


Lemma exposed_with_object_valued_options_witness :
  exposed querySelectorAll "video" nested_options world = (Ok tt, world) /\
  exposed querySelectorAll "img" nested_options world =
    (Throw (ReferenceError "deepExtend"), world).
Proof.
  assert (H : has_object_valued_property nested_options).
  { exists "style". split; [| reflexivity].
    apply list_elem_of_further, list_elem_of_here. }
  split.
  - apply (proj1 (exposed_with_object_valued_options querySelectorAll "video"
                    nested_options world eq_refl eq_refl H)). reflexivity.
  - apply (proj2 (exposed_with_object_valued_options querySelectorAll "img"
                    nested_options world eq_refl eq_refl H)). discriminate.
Defined.

Lemma configured_modifier_is_obeyed_witness :
  exists wd,
    last (instances (exec (drawMaps 1 custom_options) world)) = Some wd /\
    option_of wd "closeKey" = VStr "shiftKey" /\
    held ctrl_click wd "regretKey" = true /\
    held undo_click wd "regretKey" = false.
Proof.
  assert (Hp : plain_options custom_options) by (split; [right |]; reflexivity).
  assert (H : drawMaps 1 custom_options world =
              (Ok tt, exec (drawMaps 1 custom_options) world))
    by (vm_compute; reflexivity).
  destruct (configured_modifier_is_obeyed 1 custom_options world _ Hp H)
    as (wd & Hl & Hconf).
  destruct (Hconf "closeKey" ltac:(vm_compute; eauto)) as [Hclose _].
  destruct (Hconf "regretKey" ltac:(vm_compute; eauto)) as [_ Hheld].
  exists wd. split; [exact Hl |]. split; [rewrite Hclose; vm_compute; reflexivity |].
  rewrite !(Hheld _ "ctrlKey") by (vm_compute; reflexivity).
  split; reflexivity.
Defined.

End MoreExamples.
